(** * Context-window management of the chat client (server.py)

    A shallow embedding of the conversation helpers of [server.py]:
    the OpenAI-format converters, the history trimmer, the prompt
    builder, the transcript store and the per-message controller
    [respond], together with the properties established about them.

    Modelling conventions.
    - Python [str] is [string] (a byte string: text is taken in its
      UTF-8 encoding, so a character is one to four bytes); Python
      [int] is [Z] (unbounded, signed).
    - A history entry is a Python sequence of text fields; it is modelled
      as [list string].  The source tests [len(item) == 2] before
      unpacking, so entries of any length are representable.
    - [count_tokens] wraps the external tokenizer; it is a parameter
      [string -> nat] (a length, hence never negative).
    - The file system, the clock, the environment variable holding the
      credential and the HTTP endpoint form an explicit [world] that the
      stateful functions thread through.
    - A generator is modelled by the finite list of values it yields. *)

From Stdlib Require Import ZArith String Ascii List Lia DecimalString.
From stdpp Require Import base list strings gmap.

Open Scope string_scope.
Open Scope list_scope.
Open Scope Z_scope.

(** ** Configuration constants *)

Definition MAX_TOKENS : Z := 4000.
Definition MAX_HISTORY_ITEMS : nat := 20.
Definition CONVERSATION_DIR : string := "data/conversations".

(** ** Data model *)

(** One history entry: [(user_msg, bot_msg)] when well formed. *)
Abbreviation item := (list string).

(** [len(item) == 2] *)
Definition well_formed (it : item) : Prop := length it = 2%nat.

#[global] Instance well_formed_dec (it : item) : Decision (well_formed it).
Proof. unfold well_formed. apply _. Defined.

(** A role-tagged message, the dict [{"role": r, "content": c}]. *)
Record message := Message { role : string; content : string }.

#[global] Instance message_eq_dec : EqDecision message.
Proof. solve_decision. Defined.

(** The [my_profile] object of [profile.json]. *)
Record profile := Profile {
  name : string;
  age : Z;
  profession : string;
  interests : list string;
  memory : list string
}.

(** The JSON body posted to the completion endpoint. *)
Record request := Request {
  model : string;
  messages : list message;
  stream : bool;
  max_tokens : Z
}.

(** What [requests.post(..., stream=True)] gives back.  A line of the
    event stream either carries a [delta.content] text or is skipped by
    the reader (blank line, no [data:] prefix, the [DONE] marker,
    undecodable JSON, no choices).  [failure] is an exception raised
    while the lines are read. *)
Inductive sse_line :=
| Delta (text : string)
| Skipped.

Inductive http_result :=
| ConnectionError (e : string)
| Response (status_code : Z) (lines : list sse_line) (failure : option string).

(** What one conversation file holds: a JSON array of role/content
    objects, or something [json.load] and the converter cannot digest. *)
Inductive file_content :=
| Unreadable
| Document (d : list message).

(** The state outside the process.  A write at a path of [readonly]
    raises.  When the path cannot even be opened, the file is untouched.
    When it is opened and the failure comes later (while [json.dump]
    writes, or when the file is closed), [open(filename, 'w')] has
    already truncated the file: [torn] gives what such a path is left
    holding. *)
Record world := World {
  files : gmap string file_content;   (* path -> content *)
  readonly : gset string;             (* paths at which a write fails *)
  now : string;                       (* datetime.now().strftime("%Y%m%d_%H%M%S") *)
  api_key : option string;            (* os.getenv("DEEPSEEK_API_KEY") *)
  sent : list request;                (* requests posted so far *)
  torn : gmap string file_content     (* what a failed write leaves behind *)
}.

(** The phases of one turn in which an exception can escape to the
    [except] clause of [respond]. *)
Inductive phase := Merging | Trimming | Streaming.

(** Result of a computation that may raise. *)
Inductive outcome (A : Type) :=
| Returned (a : A)
| Raised (e : string).
Arguments Returned {A} a.
Arguments Raised {A} e.

#[global] Instance outcome_ret : MRet outcome := fun A a => Returned a.

#[global] Instance outcome_bind : MBind outcome := fun A B k m =>
  match m with
  | Returned a => k a
  | Raised e => Raised e
  end.

(** ** Text helpers *)

(** [str(n)] for an integer. *)
Definition str_of_int (z : Z) : string := NilZero.string_of_int (Z.to_int z).

(** [str.isspace], character by character.  The characters for which
    it holds are U+0009..U+000D, U+001C..U+0020, U+0085, U+00A0, U+1680,
    U+2000..U+200A, U+2028, U+2029, U+202F, U+205F and U+3000; in UTF-8
    they take one, two or three bytes. *)

(** One byte: tab, LF, VT, FF, CR, the four separators 28..31 and the
    space. *)
Definition isspace (c : ascii) : bool :=
  let n := nat_of_ascii c in
  ((9 <=? n)%nat && (n <=? 13)%nat) || ((28 <=? n)%nat && (n <=? 32)%nat).

(** Two bytes: U+0085 is [C2 85], U+00A0 is [C2 A0]. *)
Definition isspace2 (c1 c2 : ascii) : bool :=
  let n1 := nat_of_ascii c1 in
  let n2 := nat_of_ascii c2 in
  (n1 =? 194)%nat && ((n2 =? 133)%nat || (n2 =? 160)%nat).

(** Three bytes: U+1680 is [E1 9A 80]; U+2000..U+200A are
    [E2 80 80]..[E2 80 8A]; U+2028, U+2029 and U+202F are [E2 80 A8],
    [E2 80 A9] and [E2 80 AF]; U+205F is [E2 81 9F]; U+3000 is
    [E3 80 80]. *)
Definition isspace3 (c1 c2 c3 : ascii) : bool :=
  let n1 := nat_of_ascii c1 in
  let n2 := nat_of_ascii c2 in
  let n3 := nat_of_ascii c3 in
  ((n1 =? 225)%nat && (n2 =? 154)%nat && (n3 =? 128)%nat)
  || ((n1 =? 226)%nat && (n2 =? 128)%nat
      && (((128 <=? n3)%nat && (n3 <=? 138)%nat)
          || (n3 =? 168)%nat || (n3 =? 169)%nat || (n3 =? 175)%nat))
  || ((n1 =? 226)%nat && (n2 =? 129)%nat && (n3 =? 159)%nat)
  || ((n1 =? 227)%nat && (n2 =? 128)%nat && (n3 =? 128)%nat).

(** [s.lstrip()]: the whitespace characters at the head of [s] are
    removed, whatever their width. *)
Fixpoint lstrip (s : string) : string :=
  match s with
  | EmptyString => EmptyString
  | String c1 s1 =>
      if isspace c1 then lstrip s1
      else match s1 with
           | String c2 s2 =>
               if isspace2 c1 c2 then lstrip s2
               else match s2 with
                    | String c3 s3 =>
                        if isspace3 c1 c2 c3 then lstrip s3 else s
                    | EmptyString => s
                    end
           | EmptyString => s
           end
  end.

(** [s] is empty or made of whitespace characters only. *)
Fixpoint whitespace_only (s : string) : bool :=
  match s with
  | EmptyString => true
  | String c1 s1 =>
      if isspace c1 then whitespace_only s1
      else match s1 with
           | String c2 s2 =>
               if isspace2 c1 c2 then whitespace_only s2
               else match s2 with
                    | String c3 s3 =>
                        isspace3 c1 c2 c3 && whitespace_only s3
                    | EmptyString => false
                    end
           | EmptyString => false
           end
  end.

(** [s.rstrip()]: [s] is cut at the first point after which only
    whitespace follows.  (No whitespace character starts with a
    continuation byte, so the cut never falls inside a character.) *)
Fixpoint rstrip (s : string) : string :=
  match s with
  | EmptyString => EmptyString
  | String c s' =>
      if whitespace_only s then EmptyString else String c (rstrip s')
  end.

(** The text whose UTF-8 bytes are given. *)
Definition utf8 (bytes : list nat) : string :=
  foldr (fun b s => String (ascii_of_nat b) s) EmptyString bytes.

(** The whitespace characters, in UTF-8. *)
Definition whitespace_chars : list string :=
  (map (fun b => utf8 [b]) [9; 10; 11; 12; 13; 28; 29; 30; 31; 32]
   ++ [utf8 [194; 133]; utf8 [194; 160]; utf8 [225; 154; 128]]
   ++ map (fun b => utf8 [226; 128; b])
          [128; 129; 130; 131; 132; 133; 134; 135; 136; 137; 138;
           168; 169; 175]
   ++ [utf8 [226; 129; 159]; utf8 [227; 128; 128]])%nat.

(** [s.strip()] *)
Definition strip (s : string) : string := rstrip (lstrip s).

(** [', '.join(l)] *)
Definition join (sep : string) (l : list string) : string := String.concat sep l.

Definition newline : string := String (ascii_of_nat 10) EmptyString.

(** ** Format converters *)

(** [convert_to_openai_format]: two dicts per two-field entry, other
    entries are passed over. *)
Fixpoint convert_to_openai_format (chat_history : list item) : list message :=
  match chat_history with
  | [] => []
  | [user_msg; bot_msg] :: rest =>
      Message "user" user_msg :: Message "assistant" bot_msg
        :: convert_to_openai_format rest
  | _ :: rest => convert_to_openai_format rest
  end.

(** [range(0, n, 2)] *)
Definition range_step2 (n : nat) : list nat :=
  map (fun k => (2 * k)%nat) (seq 0 (Nat.div2 (n + 1))).

(** The body of the loop of [convert_from_openai_format] at index [i]:
    what it appends to [chat_history].  The guard [i+1 < len(...)] keeps
    both subscripts in range. *)
Definition convert_from_step (formatted_history : list message) (i : nat)
  : list item :=
  if (i + 1 <? length formatted_history)%nat then
    match formatted_history !! i, formatted_history !! (i + 1)%nat with
    | Some u, Some b => [[content u; content b]]
    | _, _ => []
    end
  else [].

Definition convert_from_openai_format (formatted_history : list message)
  : list item :=
  flat_map (convert_from_step formatted_history)
           (range_step2 (length formatted_history)).

(** ** Transcript store *)

(** [load_conversation]: every failure (missing file, bad content) is
    caught and gives the empty history. *)
Definition load_conversation (w : world) (filename : string) : list item :=
  match files w !! filename with
  | Some (Document formatted_history) =>
      convert_from_openai_format formatted_history
  | Some Unreadable => []
  | None => []
  end.

(** [save_conversation]: an empty [filename] is replaced by a fresh
    time-derived one; a failed write is caught and reported by the empty
    string, and it leaves the file as it was or torn, depending on
    where the write failed.  The entries are texts in UTF-8, which
    [json.dump] always serialises, so whether the write fails is a
    matter of the file system: it depends on the path, not on the
    history. *)
Definition save_conversation (w : world) (conversation : list item)
           (filename : string) : string * world :=
  let filename :=
    if decide (filename = "")
    then CONVERSATION_DIR +:+ "/conversation_" +:+ now w +:+ ".json"
    else filename in
  if decide (filename ∈ readonly w)
  then ("",
        match torn w !! filename with
        | Some left_behind =>
            World (<[filename := left_behind]> (files w))
                  (readonly w) (now w) (api_key w) (sent w) (torn w)
        | None => w
        end)
  else (filename,
        World (<[filename := Document (convert_to_openai_format conversation)]>
                 (files w))
              (readonly w) (now w) (api_key w) (sent w) (torn w)).

(** [l[-n:]] for a positive [n]. *)
Definition last_n {A} (n : nat) (l : list A) : list A :=
  drop (length l - n) l.

(** The two messages of an entry both occur in a prompt. *)
Definition turn_in_prompt (out : list message) (it : item) : Prop :=
  match it with
  | [user_msg; bot_msg] =>
      Message "user" user_msg ∈ out /\ Message "assistant" bot_msg ∈ out
  | _ => False
  end.

(** A model tokenizer for worked examples: one token per byte. *)
Definition byte_tokens (text : string) : nat := String.length text.

#[global] Instance turn_in_prompt_dec out it : Decision (turn_in_prompt out it).
Proof.
  destruct it as [|u [|b [|c r]]]; simpl; apply _.
Defined.

(** The shape [convert_to_openai_format] writes: an even number of
    messages tagged [user], [assistant], [user], [assistant], ... *)
Fixpoint alternating (d : list message) : bool :=
  match d with
  | [] => true
  | u :: b :: rest =>
      bool_decide (role u = "user") && bool_decide (role b = "assistant")
      && alternating rest
  | [_] => false
  end.

(** The text obtained by appending fragments one after the other, as
    [bot_message += chunk] does. *)
Definition concat_fragments (chunks : list string) : string :=
  foldr String.append "" chunks.

(** ** The profile file *)

(** What [profile.json] holds: nothing (no such file), something that
    cannot be read as an object with a [my_profile] entry, or a
    profile. *)
Inductive profile_file :=
| NoProfile
| BadProfile
| StoredProfile (p : profile).

(** The file and what opening it for writing does: [None] when the
    write goes through, the exception text otherwise. *)
Record profile_store := ProfileStore {
  profile_json : profile_file;
  profile_write_error : option string
}.

(** The profile that [load_profile] writes when the file is missing. *)
Definition default_profile : profile :=
  Profile "用户" 20 "未设置" ["未设置"] [].

(** [load_profile]: the stored profile; on a missing file the default
    profile, written back first (an exception of that write is raised
    inside the handler and escapes); [None] on any other failure. *)
Definition load_profile (s : profile_store)
  : outcome (option profile) * profile_store :=
  match profile_json s with
  | StoredProfile p => (Returned (Some p), s)
  | NoProfile =>
      match profile_write_error s with
      | None =>
          (Returned (Some default_profile),
           ProfileStore (StoredProfile default_profile) (profile_write_error s))
      | Some e => (Raised e, s)
      end
  | BadProfile => (Returned None, s)
  end.

(** ** Data for the worked examples *)

(** A text of 12000 digits: 12000 tokens for the byte tokenizer, and at
    least 4000 for an encoding such as [cl100k_base], which puts at most
    three digits in a token. *)
Definition long_text : string := String.concat "" (replicate 12000 "7").

(** A stored array with an unmatched trailing element. *)
Definition odd_document : list message :=
  [Message "user" "u1"; Message "assistant" "a1"; Message "user" "u2"].

(** A store holding one readable record, one record of odd length and
    one file that is not a conversation; no credential is set. *)
Definition sample_world : world :=
  World (<["data/conversations/conversation_a.json" :=
             Document [Message "user" "hi"; Message "assistant" "hello"]]>
         (<["data/conversations/conversation_b.json" := Document odd_document]>
          (<["data/conversations/conversation_c.json" := Unreadable]> ∅)))
        ∅ "20240102_030405" None [] ∅.

Definition sample_files (w : world) : list string :=
  ["data/conversations/conversation_a.json"].

Definition no_endpoint (key : string) (r : request) : http_result :=
  ConnectionError "unreachable".

Definition sample_str (l : list message) : string :=
  join ", " (map content l).

(** The same store with a credential, and an endpoint that answers with
    two texts, a skipped line and an empty text. *)
Definition keyed_world : world :=
  World (files sample_world) (readonly sample_world) (now sample_world)
        (Some "sk-test") [] ∅.

(** The keyed store when the disk fills up: record [a] can be opened
    but the write fails and leaves it truncated; record [b] cannot be
    opened at all. *)
Definition full_disk_world : world :=
  World (files sample_world)
        {["data/conversations/conversation_a.json";
          "data/conversations/conversation_b.json"]}
        (now sample_world) (Some "sk-test") []
        {["data/conversations/conversation_a.json" := Unreadable]}.

Definition sample_endpoint (key : string) (r : request) : http_result :=
  Response 200 [Delta "Hel"; Skipped; Delta ""; Delta "lo"] None.

(** A history of twenty exchanges, and a profile whose name alone
    exceeds the request budget. *)
Definition twenty_turns : list item := replicate 20 ["u"; "a"].

Definition big_profile : profile := Profile long_text 20 "p" [] [].

Definition no_fault (ph : phase) : option string := None.

Definition tokenizer_fault (ph : phase) : option string :=
  match ph with
  | Trimming => Some "Encountered text corresponding to disallowed special token"
  | _ => None
  end.

(** ** The functions that depend on the environment *)

Section Program.

(** [count_tokens text = len(encoding.encode(text))] *)
Variable count_tokens : string -> nat.

(** [get_conversation_files]: the conversation files, newest first. *)
Variable get_conversation_files : world -> list string.

(** [requests.post] against the completion endpoint, keyed by the
    credential. *)
Variable requests_post : string -> request -> http_result.

(** [str(messages)], Python's rendering of a list of dicts. *)
Variable str_of_messages : list message -> string.

(** An exception escaping a phase of the turn, with its text.  The typed
    model makes the operations of a phase total (the directory listing,
    the tokenizer on any text, the profile lookups), so the exception
    that the Python runtime may raise there is supplied from outside. *)
Variable fault : phase -> option string.

Definition guarded {A} (p : phase) (a : A) : outcome A :=
  match fault p with
  | Some e => Raised e
  | None => Returned a
  end.

(** *** Token accounting *)

(** Cost charged for one entry, [count_tokens(user_msg) +
    count_tokens(bot_msg)]; entries that are not pairs are never
    charged. *)
Definition item_tokens (it : item) : Z :=
  match it with
  | [user_msg; bot_msg] =>
      Z.of_nat (count_tokens user_msg) + Z.of_nat (count_tokens bot_msg)
  | _ => 0
  end.

Definition total_cost (l : list item) : Z :=
  foldr (fun it acc => item_tokens it + acc) 0 l.

(** Tokens of the contents of a prompt. *)
Definition prompt_tokens (l : list message) : Z :=
  foldr (fun m acc => Z.of_nat (count_tokens (content m)) + acc) 0 l.

(** *** [trim_conversation]

    [items] is what remains of [reversed(conversation)]; [total_tokens]
    and [trimmed] are the two locals.  [continue] is the recursive call
    on the rest, [break] returns [trimmed] as it stands, and
    [trimmed.insert(0, item)] is a cons. *)
Fixpoint trim_loop (max_tokens : Z) (items : list item)
         (total_tokens : Z) (trimmed : list item) : list item :=
  match items with
  | [] => trimmed
  | it :: rest =>
      match it with
      | [user_msg; bot_msg] =>
          let item_tokens :=
            Z.of_nat (count_tokens user_msg) + Z.of_nat (count_tokens bot_msg) in
          if total_tokens + item_tokens >? max_tokens
          then trimmed
          else trim_loop max_tokens rest (total_tokens + item_tokens) (it :: trimmed)
      | _ => trim_loop max_tokens rest total_tokens trimmed
      end
  end.

Definition trim_conversation (conversation : list item) (max_tokens : Z)
  : list item :=
  trim_loop max_tokens (reverse conversation) 0 [].

(** *** [load_recent_conversations] *)


Definition load_recent_conversations (w : world) (max_count : nat) : list item :=
  let conversation_files := get_conversation_files w in
  let recent_conversations :=
    flat_map (load_conversation w) (take max_count conversation_files) in
  last_n max_count recent_conversations.

(** *** [prepare_api_messages] *)

Definition system_prompt (p : profile) : message :=
  Message "system"
    ("你正在与" +:+ name p +:+ "对话:" +:+ newline
     +:+ "        年龄: " +:+ str_of_int (age p) +:+ newline
     +:+ "        职业: " +:+ profession p +:+ newline
     +:+ "        兴趣: " +:+ join ", " (interests p)).

(** The [for] loop over [conversation[-MAX_HISTORY_ITEMS:]], oldest
    entry first, with its two locals [messages] and [tokens_used]. *)
Fixpoint history_loop (items : list item) (messages : list message)
         (tokens_used : Z) : list message * Z :=
  match items with
  | [] => (messages, tokens_used)
  | it :: rest =>
      match it with
      | [user_msg; bot_msg] =>
          let user_content := Message "user" user_msg in
          let bot_content := Message "assistant" bot_msg in
          let new_tokens :=
            Z.of_nat (count_tokens user_msg) + Z.of_nat (count_tokens bot_msg) in
          if tokens_used + new_tokens >? MAX_TOKENS
          then (messages, tokens_used)
          else history_loop rest (messages ++ [user_content; bot_content])
                            (tokens_used + new_tokens)
      | _ => history_loop rest messages tokens_used
      end
  end.

Definition prepare_api_messages (conversation : list item) (p : profile)
           (new_message : string) : list message :=
  let system_prompt := system_prompt p in
  let '(messages, tokens_used) :=
    history_loop (last_n MAX_HISTORY_ITEMS conversation)
                 [system_prompt]
                 (Z.of_nat (count_tokens (content system_prompt))) in
  if Z.of_nat (count_tokens new_message) + tokens_used <? MAX_TOKENS
  then messages ++ [Message "user" new_message]
  else messages.

(** How the loop of [prepare_api_messages] cuts the well-formed entries
    of its window: [included] are the entries whose messages it emits,
    [omitted] the ones after the point where it stopped.  The included
    entries fit the budget together with the system message, and the
    first omitted entry is the one that did not fit any more. *)
Definition history_cut (conversation : list item) (p : profile)
           (included omitted : list item) : Prop :=
  let system_tokens := Z.of_nat (count_tokens (content (system_prompt p))) in
  filter well_formed (last_n MAX_HISTORY_ITEMS conversation) = included ++ omitted
  /\ (included = [] \/ system_tokens + total_cost included <= MAX_TOKENS)
  /\ (omitted = [] \/
      exists t, head omitted = Some t
                /\ system_tokens + total_cost included + item_tokens t > MAX_TOKENS).

(** *** [call_deepseek_api_stream]

    The fragments the generator yields, and the world after it ran. *)
Definition read_lines (lines : list sse_line) : list string :=
  flat_map (fun l => match l with
                     | Delta text => if decide (text = "") then [] else [text]
                     | Skipped => []
                     end) lines.

Definition call_deepseek_api_stream (w : world) (prompt : string)
           (conversation : list item) (p : profile) : list string * world :=
  match api_key w with
  | None =>
      (["[错误] 未设置API密钥，请在.env文件中配置DEEPSEEK_API_KEY"], w)
  | Some key =>
      if decide (key = "") then
        (["[错误] 未设置API密钥，请在.env文件中配置DEEPSEEK_API_KEY"], w)
      else
        let messages := prepare_api_messages conversation p prompt in
        let data :=
          Request "deepseek-chat" messages true
                  (Z.min 2000 (MAX_TOKENS
                               - Z.of_nat (count_tokens (str_of_messages messages)))) in
        let w' := World (files w) (readonly w) (now w) (api_key w)
                        (sent w ++ [data]) (torn w) in
        match requests_post key data with
        | ConnectionError e => (["[连接错误] " +:+ e], w')
        | Response status_code lines failure =>
            if status_code =? 200 then
              (read_lines lines
                 ++ match failure with
                    | Some e => ["[连接错误] " +:+ e]
                    | None => []
                    end, w')
            else (["[API 错误] 状态码: " +:+ str_of_int status_code], w')
        end
  end.

(** *** [respond] *)

(** An exception escapes the [try] block in phase [ph] with text [e]:
    the earlier phases went through. *)
Definition raised_in (ph : phase) (e : string) : Prop :=
  match ph with
  | Merging => fault Merging = Some e
  | Trimming => fault Merging = None /\ fault Trimming = Some e
  | Streaming =>
      fault Merging = None /\ fault Trimming = None /\ fault Streaming = Some e
  end.

(** The loop that consumes the fragments: each one extends
    [bot_message] and yields a snapshot. *)
Fixpoint stream_loop (trimmed_history : list item) (message current_file : string)
         (bot_message : string) (chunks : list string)
  : list (list item * string) * string :=
  match chunks with
  | [] => ([], bot_message)
  | chunk :: rest =>
      let bot_message := bot_message +:+ chunk in
      let temp_history := trimmed_history ++ [[message; bot_message]] in
      let '(ys, final) :=
        stream_loop trimmed_history message current_file bot_message rest in
      ((temp_history, current_file) :: ys, final)
  end.

(** The body of the [try] block: the values yielded and the final world,
    or the exception that escaped.  An exception can only escape before
    the first fragment: past that point the generator
    [call_deepseek_api_stream] runs inside its own [try]. *)
Definition respond_try (w : world) (message : string) (chat_history : list item)
           (p : profile) (current_file : string)
  : outcome (list (list item * string) * world) :=
  recent_chats ← guarded Merging (load_recent_conversations w 30);
  let combined_history := recent_chats ++ chat_history in
  let cleaned_history := filter well_formed combined_history in
  trimmed_history ←
    guarded Trimming (trim_conversation cleaned_history (MAX_TOKENS `div` 2));
  '(chunks, w1) ←
    guarded Streaming (call_deepseek_api_stream w message trimmed_history p);
  let '(ys, bot_message) :=
    stream_loop trimmed_history message current_file "" chunks in
  let full_conversation := trimmed_history ++ [[message; bot_message]] in
  let '(current_file', w2) := save_conversation w1 full_conversation current_file in
  mret (ys ++ [(full_conversation, current_file')], w2).

Definition respond (w : world) (message : string) (chat_history : list item)
           (p : profile) (current_file : string)
  : list (list item * string) * world :=
  if decide (strip message = "") then
    ([(chat_history, current_file)], w)
  else
    match respond_try w message chat_history p current_file with
    | Returned r => r
    | Raised e =>
        let error_msg := "发生错误: " +:+ e in
        let error_history := chat_history ++ [[message; error_msg]] in
        ([(error_history, current_file)], w)
    end.

(** * Properties *)

(** ** Costs *)

Lemma item_tokens_nonneg it : 0 <= item_tokens it.
Proof.
  destruct it as [|u [|b [|c r]]]; simpl; lia.
Qed.

Lemma total_cost_nonneg l : 0 <= total_cost l.
Proof.
  induction l as [|it l IH]; simpl; [lia|].
  pose proof (item_tokens_nonneg it). lia.
Qed.

Lemma total_cost_app l1 l2 :
  total_cost (l1 ++ l2) = total_cost l1 + total_cost l2.
Proof.
  induction l1 as [|it l1 IH]; simpl; lia.
Qed.

(** Entries that are not pairs are invisible to the filter. *)
Lemma filter_skip (it : item) (rest : list item) :
  length it ≠ 2%nat ->
  filter well_formed (it :: rest) = filter well_formed rest.
Proof. intros H. by rewrite filter_cons_False. Qed.

Ltac skip_malformed H :=
  rewrite filter_skip in H by (simpl; lia).

(** ** [trim_conversation] *)

(** Whatever the loop adds in front of [trimmed] is, read backwards, a
    prefix of the well-formed entries it was given, and unless nothing
    was added the running total stays within the budget. *)
Lemma trim_loop_inv max_tokens items :
  forall total_tokens trimmed,
  exists taken,
    trim_loop max_tokens items total_tokens trimmed = taken ++ trimmed
    /\ reverse taken `prefix_of` filter well_formed items
    /\ (taken = [] \/ total_tokens + total_cost taken <= max_tokens).
Proof.
  induction items as [|it rest IH]; intros total trimmed.
  - exists []. split; [done|]. split; [apply prefix_nil | by left].
  - destruct it as [|u [|b [|c r]]];
      try (destruct (IH total trimmed) as (taken & E & P & C);
           exists taken; rewrite filter_skip by (simpl; lia); by simpl).
    cbn [trim_loop].
    set (c := Z.of_nat (count_tokens u) + Z.of_nat (count_tokens b)).
    destruct (Z.gtb_spec (total + c) max_tokens) as [Hgt|Hle].
    + exists []. split; [done|]. split; [apply prefix_nil | by left].
    + destruct (IH (total + c) ([u; b] :: trimmed)) as (taken & E & P & C).
      exists (taken ++ [[u; b]]). split.
      { rewrite E. by rewrite <- app_assoc. }
      split.
      { rewrite reverse_app. simpl.
        rewrite filter_cons_True by done.
        by apply prefix_cons. }
      right. rewrite total_cost_app. simpl. fold c.
      destruct C as [->|C]; simpl; lia.
Qed.

(** Once the first well-formed entry met by the loop overflows, the loop
    stops without adding anything. *)
Lemma trim_loop_first_overflows max_tokens items t :
  forall total_tokens trimmed,
    head (filter well_formed items) = Some t ->
    total_tokens + item_tokens t > max_tokens ->
    trim_loop max_tokens items total_tokens trimmed = trimmed.
Proof.
  induction items as [|it rest IH]; intros total trimmed Hhd Hbig.
  - discriminate.
  - destruct it as [|u [|b [|c r]]];
      try (skip_malformed Hhd; simpl; by apply IH).
    rewrite filter_cons_True in Hhd by done.
    simpl in Hhd. injection Hhd as <-. simpl in Hbig.
    cbn [trim_loop].
    destruct (Z.gtb_spec (total + (Z.of_nat (count_tokens u)
                                   + Z.of_nat (count_tokens b))) max_tokens);
      [done | lia].
Qed.

Lemma trim_conversation_suffix conversation max_tokens :
  trim_conversation conversation max_tokens
    `suffix_of` filter well_formed conversation.
Proof.
  unfold trim_conversation.
  destruct (trim_loop_inv max_tokens (reverse conversation) 0 [])
    as (taken & -> & P & _).
  rewrite app_nil_r. apply suffix_prefix_reverse.
  by rewrite <- filter_reverse.
Qed.

Lemma trim_conversation_fits conversation max_tokens :
  trim_conversation conversation max_tokens = []
  \/ total_cost (trim_conversation conversation max_tokens) <= max_tokens.
Proof.
  unfold trim_conversation.
  destruct (trim_loop_inv max_tokens (reverse conversation) 0 [])
    as (taken & -> & _ & C).
  rewrite app_nil_r. destruct C as [->|C]; [by left | right; lia].
Qed.

(** C1 (as amended): for every history and every budget that is not
    negative, the result of [trim_conversation] is a contiguous suffix
    of the well-formed entries of the history, in their original order,
    and the summed cost [count(user_text) + count(assistant_text)] of
    the result is at most the budget. *)
Theorem trim_conversation_suffix_within_budget conversation max_tokens :
  0 <= max_tokens ->
  trim_conversation conversation max_tokens
    `suffix_of` filter well_formed conversation
  /\ total_cost (trim_conversation conversation max_tokens) <= max_tokens.
Proof.
  intros Hb. split; [apply trim_conversation_suffix|].
  destruct (trim_conversation_fits conversation max_tokens) as [->|H];
    [simpl; lia | done].
Qed.

(** C2: when the most recent well-formed entry of a history costs
    strictly more than the budget, [trim_conversation] returns the empty
    list: the entry is dropped whole. *)
Theorem trim_conversation_latest_too_big conversation max_tokens t :
  last (filter well_formed conversation) = Some t ->
  item_tokens t > max_tokens ->
  trim_conversation conversation max_tokens = [].
Proof.
  intros Hlast Hbig. unfold trim_conversation.
  apply trim_loop_first_overflows with (t := t); [|lia].
  by rewrite filter_reverse, head_reverse.
Qed.

(** ** [prepare_api_messages] *)

Lemma convert_to_openai_format_pair u b rest :
  convert_to_openai_format ([u; b] :: rest)
  = Message "user" u :: Message "assistant" b :: convert_to_openai_format rest.
Proof. reflexivity. Qed.

(** The history messages never carry the system role. *)
Lemma convert_to_openai_format_roles l :
  Forall (fun m => role m ≠ "system") (convert_to_openai_format l).
Proof.
  induction l as [|it l IH]; [constructor|].
  destruct it as [|u [|b [|c r]]]; simpl; try done.
  repeat constructor; done.
Qed.

Lemma filter_no_system (l : list message) :
  Forall (fun m => role m ≠ "system") l ->
  filter (fun m => role m = "system") l = [].
Proof.
  induction 1 as [|m l Hm _ IH]; [done|].
  by rewrite filter_cons_False.
Qed.

(** The loop emits the messages of a prefix of the well-formed entries
    and charges exactly their cost; it stops at the first entry that
    would overflow. *)
Lemma history_loop_inv items :
  forall messages tokens_used,
  exists included omitted,
    filter well_formed items = included ++ omitted
    /\ history_loop items messages tokens_used
       = (messages ++ convert_to_openai_format included,
          tokens_used + total_cost included)
    /\ (included = [] \/ tokens_used + total_cost included <= MAX_TOKENS)
    /\ (omitted = [] \/
        exists t, head omitted = Some t
                  /\ tokens_used + total_cost included + item_tokens t > MAX_TOKENS).
Proof.
  induction items as [|it rest IH]; intros msgs used.
  - exists [], []. simpl. rewrite app_nil_r, Z.add_0_r. auto.
  - destruct it as [|u [|b [|c r]]];
      try (destruct (IH msgs used) as (inc & om & F & E & C & O);
           exists inc, om; rewrite filter_skip by (simpl; lia); by simpl).
    cbn [history_loop].
    set (c := Z.of_nat (count_tokens u) + Z.of_nat (count_tokens b)).
    rewrite filter_cons_True by done.
    destruct (Z.gtb_spec (used + c) MAX_TOKENS) as [Hgt|Hle].
    + exists [], ([u; b] :: filter well_formed rest). simpl.
      rewrite app_nil_r, Z.add_0_r. repeat split; auto.
      right. exists [u; b]. simpl. fold c. split; [done | lia].
    + destruct (IH (msgs ++ [Message "user" u; Message "assistant" b]) (used + c))
        as (inc & om & F & E & C & O).
      exists ([u; b] :: inc), om. rewrite F, E.
      rewrite convert_to_openai_format_pair. simpl. fold c.
      split; [done|]. split.
      { f_equal; [by rewrite <- app_assoc | lia]. }
      split.
      { right. destruct C as [->|C]; simpl; lia. }
      destruct O as [->|(t & Ht & Hbig)]; [by left|].
      right. exists t. split; [done | lia].
Qed.

(** The whole prompt: the system message, the messages of the included
    entries, and the new message when it fits strictly. *)
Lemma prepare_api_messages_shape conversation p new_message :
  exists included omitted,
    history_cut conversation p included omitted
    /\ prepare_api_messages conversation p new_message
       = system_prompt p :: convert_to_openai_format included
         ++ (if Z.of_nat (count_tokens new_message)
                + (Z.of_nat (count_tokens (content (system_prompt p)))
                   + total_cost included) <? MAX_TOKENS
             then [Message "user" new_message] else []).
Proof.
  unfold prepare_api_messages, history_cut.
  destruct (history_loop_inv (last_n MAX_HISTORY_ITEMS conversation)
              [system_prompt p]
              (Z.of_nat (count_tokens (content (system_prompt p)))))
    as (inc & om & F & E & C & O).
  exists inc, om. split; [done|].
  rewrite E. simpl.
  destruct (_ <? _); [done | by rewrite app_nil_r].
Qed.

(** C3 (as amended): the loop over the last [MAX_HISTORY_ITEMS] entries
    keeps the oldest well-formed entries of that window and, once the
    check [tokens_used + new_tokens > MAX_TOKENS] triggers, omits the
    entry that triggered it and every newer one: the well-formed window
    splits into [included ++ omitted], the prompt carries exactly the
    messages of [included] between the system message and the optional
    new message, and the first omitted entry is the one that did not
    fit. *)
Theorem prepare_api_messages_keeps_oldest conversation p new_message :
  exists included omitted tail,
    history_cut conversation p included omitted
    /\ prepare_api_messages conversation p new_message
       = system_prompt p :: convert_to_openai_format included ++ tail
    /\ (tail = [] \/ tail = [Message "user" new_message]).
Proof.
  destruct (prepare_api_messages_shape conversation p new_message)
    as (inc & om & Hcut & E).
  exists inc, om. eexists. split; [done|]. split; [exact E|].
  destruct (_ <? _); auto.
Qed.

(** C4: with [running_total] the cost of the system message plus the
    cost of the included history entries, the new user message is
    appended to the prompt exactly when
    [count_tokens new_message + running_total < MAX_TOKENS] (strict);
    otherwise the prompt ends with the history and is returned all the
    same. *)
Theorem prepare_api_messages_new_message conversation p new_message :
  exists included omitted,
    history_cut conversation p included omitted
    /\ let running_total :=
         Z.of_nat (count_tokens (content (system_prompt p)))
         + total_cost included in
       let history :=
         system_prompt p :: convert_to_openai_format included in
       (prepare_api_messages conversation p new_message
        = history ++ [Message "user" new_message]
        <-> Z.of_nat (count_tokens new_message) + running_total < MAX_TOKENS)
       /\ (prepare_api_messages conversation p new_message = history
           <-> ~ Z.of_nat (count_tokens new_message) + running_total < MAX_TOKENS).
Proof.
  destruct (prepare_api_messages_shape conversation p new_message)
    as (inc & om & Hcut & E).
  exists inc, om. split; [done|]. cbv zeta. rewrite E.
  destruct (Z.ltb_spec
              (Z.of_nat (count_tokens new_message)
               + (Z.of_nat (count_tokens (content (system_prompt p)))
                  + total_cost inc)) MAX_TOKENS) as [Hlt|Hge].
  - split; split; try done.
    intros H. apply (f_equal length) in H. simpl in H.
    rewrite length_app in H. simpl in H. lia.
  - rewrite app_nil_r. split; split; try lia; try done.
    intros H. apply (f_equal length) in H. simpl in H.
    rewrite length_app in H. simpl in H. lia.
Qed.

(** C5: whatever the history, the profile and the new message, the
    prompt starts with the system message and no other message of it has
    the system role. *)
Theorem prepare_api_messages_one_system conversation p new_message :
  exists rest,
    prepare_api_messages conversation p new_message = system_prompt p :: rest
    /\ role (system_prompt p) = "system"
    /\ Forall (fun m => role m ≠ "system") rest
    /\ length (filter (fun m => role m = "system")
                      (prepare_api_messages conversation p new_message)) = 1%nat.
Proof.
  destruct (prepare_api_messages_shape conversation p new_message)
    as (inc & om & _ & E).
  eexists. split; [exact E|]. split; [done|].
  assert (Hrest : Forall (fun m => role m ≠ "system")
            (convert_to_openai_format inc
             ++ (if Z.of_nat (count_tokens new_message)
                    + (Z.of_nat (count_tokens (content (system_prompt p)))
                       + total_cost inc) <? MAX_TOKENS
                 then [Message "user" new_message] else []))).
  { apply Forall_app. split; [apply convert_to_openai_format_roles|].
    destruct (_ <? _); repeat constructor; done. }
  split; [done|].
  rewrite E. rewrite filter_cons_True by done.
  by rewrite (filter_no_system _ Hrest).
Qed.

(** ** The converters *)

(** Induction over a list two elements at a time. *)
Lemma pair_induction {A} (P : list A -> Prop) :
  P [] -> (forall x, P [x]) -> (forall x y l, P l -> P (x :: y :: l)) ->
  forall l, P l.
Proof.
  intros H0 H1 H2 l.
  cut (P l /\ forall x, P (x :: l)); [tauto|].
  induction l as [|y l [IH1 IH2]]; split; auto.
Qed.

(** Two positions further in a list that is two elements longer, the
    loop body does the same. *)
Lemma convert_from_step_shift u b (rest : list message) (k : nat) :
  convert_from_step (u :: b :: rest) (2 * S k)
  = convert_from_step rest (2 * k).
Proof.
  unfold convert_from_step.
  replace (2 * S k)%nat with (S (S (2 * k))) by lia.
  cbn [length lookup list_lookup Nat.add].
  destruct (Nat.ltb_spec (2 * k + 1) (length rest));
    destruct (Nat.ltb_spec (S (S (2 * k + 1))) (S (S (length rest))));
    try lia; reflexivity.
Qed.

Lemma convert_from_openai_format_nil : convert_from_openai_format [] = [].
Proof. reflexivity. Qed.

Lemma convert_from_openai_format_single m :
  convert_from_openai_format [m] = [].
Proof. reflexivity. Qed.

(** The loop consumes the array two elements at a time. *)
Lemma convert_from_openai_format_pair u b rest :
  convert_from_openai_format (u :: b :: rest)
  = [content u; content b] :: convert_from_openai_format rest.
Proof.
  unfold convert_from_openai_format, range_step2.
  replace (length (u :: b :: rest) + 1)%nat
    with (S (S (length rest + 1))) by (simpl; lia).
  cbn [Nat.div2 seq map flat_map].
  rewrite <- seq_shift, map_map.
  replace (convert_from_step (u :: b :: rest) (2 * 0))
    with [[content u; content b]] by reflexivity.
  cbn [app]. f_equal.
  induction (seq 0 (Nat.div2 (length rest + 1))) as [|k ks IH]; [done|].
  cbn [map flat_map]. by rewrite convert_from_step_shift, IH.
Qed.

(** Every entry produced by the converter has exactly two fields. *)
Lemma convert_from_openai_format_well_formed d :
  Forall well_formed (convert_from_openai_format d).
Proof.
  induction d as [| m | u b rest IH] using pair_induction.
  - constructor.
  - constructor.
  - rewrite convert_from_openai_format_pair. by constructor.
Qed.

Lemma convert_from_openai_format_length d :
  length (convert_from_openai_format d) = Nat.div2 (length d).
Proof.
  induction d as [| m | u b rest IH] using pair_induction; [done..|].
  rewrite convert_from_openai_format_pair. simpl. by rewrite IH.
Qed.

(** Pairing is positional: entry [i] is made of the contents at the
    positions [2i] and [2i+1]. *)
Lemma convert_from_openai_format_lookup d :
  forall (i : nat) u b,
    d !! (2 * i)%nat = Some u -> d !! (2 * i + 1)%nat = Some b ->
    convert_from_openai_format d !! i = Some [content u; content b].
Proof.
  induction d as [| m | x y rest IH] using pair_induction; intros i u b Hu Hb.
  - done.
  - destruct i; [done|].
    replace (2 * S i)%nat with (S (S (2 * i))) in Hu by lia. done.
  - rewrite convert_from_openai_format_pair.
    destruct i as [|i].
    + simpl in Hu, Hb. by injection Hu as <-; injection Hb as <-.
    + replace (2 * S i)%nat with (S (S (2 * i))) in Hu by lia.
      replace (2 * S i + 1)%nat with (S (S (2 * i + 1))) in Hb by lia.
      simpl in Hu, Hb. simpl. by apply IH.
Qed.

(** The role tags play no part: two arrays with the same contents
    convert to the same history. *)
Lemma convert_from_openai_format_roles_ignored d :
  forall d', map content d' = map content d ->
             convert_from_openai_format d' = convert_from_openai_format d.
Proof.
  induction d as [| m | x y rest IH] using pair_induction; intros d' H.
  - by destruct d'.
  - destruct d' as [|m' [|? ?]]; done.
  - destruct d' as [|x' [|y' rest']]; try done.
    simpl in H. injection H as Hx Hy Hrest.
    rewrite !convert_from_openai_format_pair, Hx, Hy.
    f_equal. by apply IH.
Qed.

(** An unmatched trailing element is dropped on its own. *)
Lemma convert_from_openai_format_trailing d m :
  Nat.Even (length d) ->
  convert_from_openai_format (d ++ [m]) = convert_from_openai_format d.
Proof.
  induction d as [| x | x y rest IH] using pair_induction; intros Hev.
  - reflexivity.
  - destruct Hev as [k Hk]. simpl in Hk. lia.
  - cbn [app]. rewrite !convert_from_openai_format_pair. f_equal.
    apply IH. destruct Hev as [k Hk]. simpl in Hk.
    exists (k - 1)%nat. lia.
Qed.

Lemma convert_round_trip h :
  Forall well_formed h ->
  convert_from_openai_format (convert_to_openai_format h) = h.
Proof.
  induction 1 as [|it h Hit _ IH]; [done|].
  destruct it as [|u [|b [|c r]]]; try done.
  rewrite convert_to_openai_format_pair, convert_from_openai_format_pair.
  simpl. by rewrite IH.
Qed.

(** ** The transcript store *)

(** C6 (as amended): loading a record whose array has odd length
    [2k+1] returns the [k] entries made of its first [2k] elements; only
    the unmatched trailing element is dropped. *)
Theorem load_conversation_odd_length w filename d m :
  files w !! filename = Some (Document (d ++ [m])) ->
  Nat.Even (length d) ->
  load_conversation w filename = convert_from_openai_format d
  /\ length (load_conversation w filename) = Nat.div2 (length d).
Proof.
  intros Hfile Hev. unfold load_conversation. rewrite Hfile.
  rewrite convert_from_openai_format_trailing by done.
  split; [done | apply convert_from_openai_format_length].
Qed.

(** C7: what [save_conversation] stored under the key it reports is read
    back unchanged by [load_conversation], for every history of
    well-formed entries; at the level of the converters,
    [convert_from_openai_format] undoes [convert_to_openai_format]. *)
Theorem save_load_round_trip (conversation : list item) :
  Forall well_formed conversation ->
  convert_from_openai_format (convert_to_openai_format conversation)
  = conversation
  /\ forall w filename key w',
       save_conversation w conversation filename = (key, w') ->
       key ≠ "" ->
       load_conversation w' key = conversation.
Proof.
  intros Hwf. split; [by apply convert_round_trip|].
  intros w filename key w'. unfold save_conversation.
  destruct (decide (_ ∈ readonly w)) as [|Hw]; intros [= <- <-] Hkey; [done|].
  unfold load_conversation. simpl. rewrite lookup_insert_eq.
  by apply convert_round_trip.
Qed.

(** C10: every entry returned by [load_conversation] is a well-formed
    pair, whatever the store holds; and when the file holds an array of
    role/content objects, the result has one entry per full pair of
    elements, entry [i] carries the contents found at the positions [2i]
    and [2i+1], and the role tags have no influence. *)
Theorem load_conversation_pairs w filename :
  Forall well_formed (load_conversation w filename)
  /\ forall d,
       files w !! filename = Some (Document d) ->
       length (load_conversation w filename) = Nat.div2 (length d)
       /\ (forall (i : nat) u b,
             d !! (2 * i)%nat = Some u -> d !! (2 * i + 1)%nat = Some b ->
             load_conversation w filename !! i = Some [content u; content b])
       /\ (forall d', map content d' = map content d ->
                      convert_from_openai_format d'
                      = load_conversation w filename).
Proof.
  unfold load_conversation. split.
  - destruct (files w !! filename) as [[|d]|]; try constructor.
    apply convert_from_openai_format_well_formed.
  - intros d ->. split; [apply convert_from_openai_format_length|].
    split; [apply convert_from_openai_format_lookup|].
    apply convert_from_openai_format_roles_ignored.
Qed.

(** ** [respond] *)

(** Induction on a text with the hypothesis at every shorter text. *)
Lemma string_length_ind (P : string -> Prop) :
  (forall s, (forall t, (String.length t < String.length s)%nat -> P t) -> P s) ->
  forall s, P s.
Proof.
  intros H s. remember (String.length s) as n eqn:Hn. revert s Hn.
  induction n as [n IH] using lt_wf_ind. intros s ->.
  apply H. intros t Ht. by apply (IH (String.length t)).
Qed.

Lemma lstrip_unfold c1 s1 :
  lstrip (String c1 s1)
  = if isspace c1 then lstrip s1
    else match s1 with
         | String c2 s2 =>
             if isspace2 c1 c2 then lstrip s2
             else match s2 with
                  | String c3 s3 =>
                      if isspace3 c1 c2 c3 then lstrip s3 else String c1 s1
                  | EmptyString => String c1 s1
                  end
         | EmptyString => String c1 s1
         end.
Proof. reflexivity. Qed.

Lemma whitespace_only_unfold c1 s1 :
  whitespace_only (String c1 s1)
  = if isspace c1 then whitespace_only s1
    else match s1 with
         | String c2 s2 =>
             if isspace2 c1 c2 then whitespace_only s2
             else match s2 with
                  | String c3 s3 => isspace3 c1 c2 c3 && whitespace_only s3
                  | EmptyString => false
                  end
         | EmptyString => false
         end.
Proof. reflexivity. Qed.

(** The cases of one step of [lstrip] and [whitespace_only] on [s]: [s]
    is empty, or starts with a whitespace character of one, two or
    three bytes, or with something else. *)
Ltac space_cases s :=
  let c1 := fresh "c1" in let s1 := fresh "s1" in
  let c2 := fresh "c2" in let s2 := fresh "s2" in
  let c3 := fresh "c3" in let s3 := fresh "s3" in
  destruct s as [|c1 s1];
  [| rewrite ?lstrip_unfold, ?whitespace_only_unfold in *;
     destruct (isspace c1) eqn:?;
     [| destruct s1 as [|c2 s2];
        [| destruct (isspace2 c1 c2) eqn:?;
           [| destruct s2 as [|c3 s3];
              [| destruct (isspace3 c1 c2 c3) eqn:? ]]]]].

Lemma lstrip_whitespace_only s :
  whitespace_only s = true -> lstrip s = "".
Proof.
  induction s as [s IH] using string_length_ind. intros Hw.
  space_cases s; try done; apply IH; simpl; try lia; done.
Qed.

Lemma strip_whitespace_only s :
  whitespace_only s = true -> strip s = "".
Proof.
  intros H. unfold strip. by rewrite lstrip_whitespace_only.
Qed.

Lemma lstrip_empty s : lstrip s = "" -> whitespace_only s = true.
Proof.
  induction s as [s IH] using string_length_ind. intros Hl.
  space_cases s; try done; apply IH; simpl; try lia; done.
Qed.

Lemma whitespace_only_lstrip s :
  whitespace_only (lstrip s) = true -> whitespace_only s = true.
Proof.
  induction s as [s IH] using string_length_ind. intros Hw.
  space_cases s; try done; try (apply IH; simpl; try lia; done).
  - by rewrite whitespace_only_unfold, Heqb in Hw.
  - by rewrite whitespace_only_unfold, Heqb, Heqb0 in Hw.
  - by rewrite whitespace_only_unfold, Heqb, Heqb0, Heqb1 in Hw.
Qed.

Lemma rstrip_empty s : rstrip s = "" -> whitespace_only s = true.
Proof.
  destruct s as [|c s]; [done|]. cbn [rstrip].
  by destruct (whitespace_only (String c s)).
Qed.

(** The test [not message.strip()] of [respond] holds exactly for the
    messages that are empty or made of whitespace only. *)
Lemma strip_empty_iff s : strip s = "" <-> whitespace_only s = true.
Proof.
  split; [|apply strip_whitespace_only].
  unfold strip. intros H.
  by apply whitespace_only_lstrip, rstrip_empty.
Qed.

(** Each character of the table counts as whitespace, whatever
    follows it. *)
Lemma whitespace_chars_skipped :
  Forall (fun w => forall rest,
              whitespace_only (w +:+ rest) = whitespace_only rest)
         whitespace_chars.
Proof.
  unfold whitespace_chars. cbn [map app].
  repeat (constructor; [intros rest; reflexivity|]). constructor.
Qed.

(** A text made of characters of the table is whitespace only. *)
Lemma whitespace_only_chars (chars : list string) :
  Forall (fun w => w ∈ whitespace_chars) chars ->
  whitespace_only (concat_fragments chars) = true.
Proof.
  induction 1 as [|w chars Hw _ IH]; [done|].
  pose proof whitespace_chars_skipped as Hall.
  rewrite Forall_forall in Hall.
  cbn [concat_fragments foldr]. by rewrite (Hall w Hw).
Qed.

(** C8: when an exception escapes the merging, the trimming or the
    streaming phase of a non-blank message, [respond] yields once: the
    history it was given, extended with the entry made of the message
    and the formatted error text, together with the session key it was
    given. *)
Theorem respond_exception w message chat_history p current_file ph e :
  strip message ≠ "" ->
  raised_in ph e ->
  respond w message chat_history p current_file
  = ([(chat_history ++ [[message; "发生错误: " +:+ e]], current_file)], w).
Proof.
  intros Hmsg Hraise. unfold respond.
  destruct (decide (strip message = "")); [done|].
  unfold respond_try, guarded.
  destruct ph; simpl in Hraise.
  - by rewrite Hraise.
  - destruct Hraise as [-> ->]. done.
  - destruct Hraise as (-> & -> & ->). done.
Qed.

(** C9: a message that is empty or made of whitespace only is a no-op:
    [respond] yields the history and the session key it was given, once,
    and leaves the world as it was, so that nothing is posted and no
    file is written. *)
Theorem respond_blank w message chat_history p current_file :
  whitespace_only message = true ->
  respond w message chat_history p current_file
  = ([(chat_history, current_file)], w).
Proof.
  intros H. unfold respond.
  by rewrite strip_whitespace_only.
Qed.

(** * Further properties *)

(** ** The converters, in both directions *)

Lemma convert_from_to_filter_holds h :
  convert_from_openai_format (convert_to_openai_format h)
  = filter well_formed h.
Proof.
  induction h as [|it h IH]; [done|].
  destruct it as [|u [|b [|c r]]];
    try (rewrite filter_skip by (simpl; lia); exact IH).
  rewrite convert_to_openai_format_pair, convert_from_openai_format_pair.
  rewrite filter_cons_True by done. simpl. by rewrite IH.
Qed.

(** X1: writing a history in the stored format and reading it back
    gives the well-formed entries of the history, in order; the other
    entries are lost. *)
Theorem convert_from_to_filter h :
  convert_from_openai_format (convert_to_openai_format h)
  = filter well_formed h.
Proof. exact (convert_from_to_filter_holds h). Qed.

(** X2: the stored format of any history has two messages per
    well-formed entry, tagged [user] and [assistant] in turn, and its
    contents are the fields of the well-formed entries in order. *)
Theorem convert_to_openai_format_layout h :
  alternating (convert_to_openai_format h) = true
  /\ length (convert_to_openai_format h)
     = (2 * length (filter well_formed h))%nat
  /\ map content (convert_to_openai_format h)
     = concat (filter well_formed h).
Proof.
  induction h as [|it h (IHa & IHl & IHc)]; [done|].
  destruct it as [|u [|b [|c r]]];
    try (rewrite filter_skip by (simpl; lia); done).
  rewrite convert_to_openai_format_pair, filter_cons_True by done.
  cbn [alternating length map concat role content app].
  rewrite IHa, IHl, IHc. split; [|split; [lia | done]].
  by rewrite !bool_decide_eq_true_2.
Qed.

(** X3: on an array of the shape that [convert_to_openai_format]
    writes, reading and writing back changes nothing. *)
Theorem convert_to_from_alternating d :
  alternating d = true ->
  convert_to_openai_format (convert_from_openai_format d) = d.
Proof.
  induction d as [| m | u b rest IH] using pair_induction; intros Halt.
  - done.
  - done.
  - cbn [alternating] in Halt.
    apply andb_prop in Halt as [Halt Hrest].
    apply andb_prop in Halt as [Hu Hb].
    apply bool_decide_eq_true_1 in Hu, Hb.
    rewrite convert_from_openai_format_pair, convert_to_openai_format_pair.
    rewrite (IH Hrest). destruct u, b; simpl in *; by subst.
Qed.

(** ** More on [trim_conversation] *)

Lemma total_cost_reverse l : total_cost (reverse l) = total_cost l.
Proof.
  induction l as [|it l IH]; [done|].
  rewrite reverse_cons, total_cost_app, IH. simpl. lia.
Qed.

Lemma trim_loop_filter max_tokens items :
  forall total_tokens trimmed,
    trim_loop max_tokens items total_tokens trimmed
    = trim_loop max_tokens (filter well_formed items) total_tokens trimmed.
Proof.
  induction items as [|it rest IH]; intros total trimmed; [done|].
  destruct it as [|u [|b [|c r]]];
    try (rewrite filter_skip by (simpl; lia); simpl; apply IH).
  rewrite filter_cons_True by done. cbn [trim_loop].
  destruct (_ >? _); [done | apply IH].
Qed.

Lemma trim_conversation_filter_holds conversation max_tokens :
  trim_conversation conversation max_tokens
  = trim_conversation (filter well_formed conversation) max_tokens.
Proof.
  unfold trim_conversation.
  by rewrite trim_loop_filter, filter_reverse.
Qed.

(** X4: entries that are not pairs have no influence on the result. *)
Theorem trim_conversation_filter conversation max_tokens :
  trim_conversation conversation max_tokens
  = trim_conversation (filter well_formed conversation) max_tokens.
Proof. exact (trim_conversation_filter_holds conversation max_tokens). Qed.

Lemma trim_loop_all_fit max_tokens items :
  forall total_tokens trimmed,
    total_tokens + total_cost (filter well_formed items) <= max_tokens ->
    trim_loop max_tokens items total_tokens trimmed
    = reverse (filter well_formed items) ++ trimmed.
Proof.
  induction items as [|it rest IH]; intros total trimmed Hfit; [done|].
  destruct it as [|u [|b [|c r]]];
    try (rewrite filter_skip in * by (simpl; lia); simpl; by apply IH).
  rewrite filter_cons_True in * by done. cbn [trim_loop].
  simpl in Hfit.
  set (c := Z.of_nat (count_tokens u) + Z.of_nat (count_tokens b)) in *.
  pose proof (total_cost_nonneg (filter well_formed rest)).
  destruct (Z.gtb_spec (total + c) max_tokens); [lia|].
  rewrite IH by lia. rewrite reverse_cons. by rewrite <- app_assoc.
Qed.

Lemma trim_conversation_all_fit_holds conversation max_tokens :
  total_cost (filter well_formed conversation) <= max_tokens ->
  trim_conversation conversation max_tokens
  = filter well_formed conversation.
Proof.
  intros Hfit. unfold trim_conversation.
  rewrite trim_loop_all_fit.
  - by rewrite app_nil_r, filter_reverse, reverse_involutive.
  - by rewrite filter_reverse, total_cost_reverse.
Qed.

(** X5: a history whose well-formed entries fit the budget together is
    returned whole (without its malformed entries). *)
Theorem trim_conversation_all_fit conversation max_tokens :
  total_cost (filter well_formed conversation) <= max_tokens ->
  trim_conversation conversation max_tokens
  = filter well_formed conversation.
Proof. exact (trim_conversation_all_fit_holds conversation max_tokens). Qed.

(** Where the loop stops: the entries it was given split into the ones
    it took and the rest, and the first entry of the rest is the one
    that did not fit. *)
Lemma trim_loop_cut max_tokens items :
  forall total_tokens trimmed,
  exists taken rest,
    filter well_formed items = reverse taken ++ rest
    /\ trim_loop max_tokens items total_tokens trimmed = taken ++ trimmed
    /\ (rest = [] \/
        exists t, head rest = Some t
                  /\ total_tokens + total_cost taken + item_tokens t > max_tokens).
Proof.
  induction items as [|it items IH]; intros total trimmed.
  - exists [], []. auto.
  - destruct it as [|u [|b [|c r]]];
      try (destruct (IH total trimmed) as (tk & rs & F & E & C);
           exists tk, rs; rewrite filter_skip by (simpl; lia); by simpl).
    rewrite filter_cons_True by done. cbn [trim_loop].
    set (c := Z.of_nat (count_tokens u) + Z.of_nat (count_tokens b)).
    destruct (Z.gtb_spec (total + c) max_tokens) as [Hgt|Hle].
    + exists [], ([u; b] :: filter well_formed items).
      repeat split; auto. right. exists [u; b]. simpl. fold c.
      split; [done | lia].
    + destruct (IH (total + c) ([u; b] :: trimmed)) as (tk & rs & F & E & C).
      exists (tk ++ [[u; b]]), rs. rewrite F, E.
      split; [by rewrite reverse_app|].
      split; [by rewrite <- app_assoc|].
      destruct C as [->|(t & Ht & Hbig)]; [by left|].
      right. exists t. split; [done|].
      rewrite total_cost_app. simpl. fold c. lia.
Qed.

(** X6: the cut is greedy.  The well-formed entries split into the
    dropped ones followed by the result, and when something is dropped
    the newest dropped entry is one that does not fit on top of the
    result. *)
Theorem trim_conversation_cut conversation max_tokens :
  exists dropped,
    filter well_formed conversation
    = dropped ++ trim_conversation conversation max_tokens
    /\ (dropped = [] \/
        exists t, last dropped = Some t
                  /\ total_cost (trim_conversation conversation max_tokens)
                     + item_tokens t > max_tokens).
Proof.
  unfold trim_conversation.
  destruct (trim_loop_cut max_tokens (reverse conversation) 0 [])
    as (tk & rs & F & E & C).
  rewrite E, app_nil_r. exists (reverse rs). split.
  - rewrite filter_reverse in F. apply (f_equal reverse) in F.
    by rewrite reverse_involutive, reverse_app, reverse_involutive in F.
  - destruct C as [->|(t & Ht & Hbig)]; [by left|].
    right. exists t. rewrite last_reverse. split; [done | lia].
Qed.

Lemma trim_loop_keeps max_tokens items total_tokens trimmed :
  trimmed `suffix_of` trim_loop max_tokens items total_tokens trimmed.
Proof.
  destruct (trim_loop_inv max_tokens items total_tokens trimmed)
    as (taken & -> & _). by apply suffix_app_r.
Qed.

Lemma trim_loop_mono b1 b2 items :
  b1 <= b2 ->
  forall total_tokens trimmed,
    trim_loop b1 items total_tokens trimmed
      `suffix_of` trim_loop b2 items total_tokens trimmed.
Proof.
  intros Hb. induction items as [|it items IH]; intros total trimmed; [done|].
  destruct it as [|u [|b [|c r]]]; try (simpl; apply IH).
  cbn [trim_loop].
  set (c := Z.of_nat (count_tokens u) + Z.of_nat (count_tokens b)).
  destruct (Z.gtb_spec (total + c) b1), (Z.gtb_spec (total + c) b2);
    try lia; [done | | apply IH].
  eapply suffix_cons_l. apply trim_loop_keeps.
Qed.

(** X7: a larger budget keeps at least what a smaller one keeps. *)
Theorem trim_conversation_mono conversation b1 b2 :
  b1 <= b2 ->
  trim_conversation conversation b1
    `suffix_of` trim_conversation conversation b2.
Proof.
  intros Hb. unfold trim_conversation. by apply trim_loop_mono.
Qed.

Lemma trim_conversation_well_formed conversation max_tokens :
  Forall well_formed (trim_conversation conversation max_tokens).
Proof.
  destruct (trim_conversation_suffix conversation max_tokens) as [k Hk].
  assert (H : Forall well_formed (filter well_formed conversation)).
  { apply Forall_forall. intros x Hx. by apply list_elem_of_filter in Hx as [? _]. }
  rewrite Hk in H. by apply Forall_app in H as [_ H].
Qed.

Lemma filter_well_formed_id (l : list item) :
  Forall well_formed l -> filter well_formed l = l.
Proof.
  induction 1 as [|it l Hit _ IH]; [done|].
  by rewrite filter_cons_True, IH.
Qed.

(** X8: trimming is idempotent: a trimmed history passes a second
    trimming under the same budget unchanged. *)
Theorem trim_conversation_idempotent conversation max_tokens :
  trim_conversation (trim_conversation conversation max_tokens) max_tokens
  = trim_conversation conversation max_tokens.
Proof.
  pose proof (trim_conversation_well_formed conversation max_tokens) as Hwf.
  destruct (trim_conversation_fits conversation max_tokens) as [E|Hfit].
  - by rewrite E.
  - rewrite trim_conversation_all_fit_holds; rewrite filter_well_formed_id; done.
Qed.

(** ** The transcript store as a key-value store *)

Lemma load_conversation_well_formed w filename :
  Forall well_formed (load_conversation w filename).
Proof.
  unfold load_conversation.
  destruct (files w !! filename) as [[|d]|]; try constructor.
  apply convert_from_openai_format_well_formed.
Qed.

Lemma save_conversation_outcome_holds w conversation filename key w' :
  save_conversation w conversation filename = (key, w') ->
  let target :=
    if decide (filename = "")
    then CONVERSATION_DIR +:+ "/conversation_" +:+ now w +:+ ".json"
    else filename in
  ((target ∈ readonly w) /\ key = ""
   /\ (w' = w
       \/ exists left_behind,
            torn w !! target = Some left_behind
            /\ files w' = <[target := left_behind]> (files w)))
  \/ ((target ∉ readonly w) /\ key = target /\ key ≠ ""
      /\ load_conversation w' key = filter well_formed conversation).
Proof.
  intros Hsave target. unfold save_conversation in Hsave.
  fold target in Hsave.
  destruct (decide (target ∈ readonly w)) as [Hro|Hrw];
    injection Hsave as <- <-.
  - left. split; [done|]. split; [done|].
    destruct (torn w !! target) as [left_behind|]; [right | by left].
    by exists left_behind.
  - right. split; [done|]. split; [done|]. split.
    + unfold target. destruct (decide (filename = "")); [discriminate | done].
    + unfold load_conversation. simpl. rewrite lookup_insert_eq.
      apply convert_from_to_filter_holds.
Qed.

(** X9: what a save returns.  With the target being the given name, or
    a name minted from the clock when none is given: the empty string
    is returned exactly when the write at the target fails; a key that
    is not empty is the target, and loading it gives the well-formed
    entries of the saved history; and after a failed save the store is
    either as before or differs at the target only, which then holds
    what the interrupted write left behind. *)
Theorem save_conversation_outcome w conversation filename key w' :
  save_conversation w conversation filename = (key, w') ->
  let target :=
    if decide (filename = "")
    then CONVERSATION_DIR +:+ "/conversation_" +:+ now w +:+ ".json"
    else filename in
  (key = "" <-> target ∈ readonly w)
  /\ (key ≠ "" ->
      key = target
      /\ load_conversation w' key = filter well_formed conversation)
  /\ (key = "" ->
      w' = w
      \/ exists left_behind,
           torn w !! target = Some left_behind
           /\ files w' = <[target := left_behind]> (files w)).
Proof.
  intros Hsave. cbv zeta.
  destruct (save_conversation_outcome_holds _ _ _ _ _ Hsave)
    as [(Hro & Hk & Hw)|(Hrw & Hk & Hne & Hload)].
  - split; [done|]. split; [done|]. by intros _.
  - split; [split; [done | by intros ?]|].
    split; [done|]. by intros ?.
Qed.

Lemma save_conversation_frame_holds w conversation filename key w' :
  save_conversation w conversation filename = (key, w') ->
  let target :=
    if decide (filename = "")
    then CONVERSATION_DIR +:+ "/conversation_" +:+ now w +:+ ".json"
    else filename in
  (forall other, other ≠ target ->
                 load_conversation w' other = load_conversation w other)
  /\ readonly w' = readonly w /\ now w' = now w
  /\ api_key w' = api_key w /\ sent w' = sent w.
Proof.
  intros Hsave target. unfold save_conversation in Hsave.
  fold target in Hsave.
  destruct (decide (target ∈ readonly w)); injection Hsave as <- <-.
  - destruct (torn w !! target) as [left_behind|]; [|done].
    split; [|done]. intros other Hother.
    unfold load_conversation. simpl. by rewrite lookup_insert_ne.
  - split; [|done]. intros other Hother.
    unfold load_conversation. simpl. by rewrite lookup_insert_ne.
Qed.

(** X10: a save, whether it succeeds or fails, touches the target only
    (the given name, or the name minted from the clock when none is
    given): every other key loads as before, and the credential, the
    clock and the log of posted requests are left alone. *)
Theorem save_conversation_frame w conversation filename key w' :
  save_conversation w conversation filename = (key, w') ->
  let target :=
    if decide (filename = "")
    then CONVERSATION_DIR +:+ "/conversation_" +:+ now w +:+ ".json"
    else filename in
  (forall other, other ≠ target ->
                 load_conversation w' other = load_conversation w other)
  /\ readonly w' = readonly w /\ now w' = now w
  /\ api_key w' = api_key w /\ sent w' = sent w.
Proof. exact (save_conversation_frame_holds w conversation filename key w'). Qed.


(** ** [load_recent_conversations] *)

Lemma load_recent_conversations_bounds_holds w max_count :
  (length (load_recent_conversations w max_count) <= max_count)%nat
  /\ Forall well_formed (load_recent_conversations w max_count)
  /\ load_recent_conversations w max_count
       `suffix_of` flat_map (load_conversation w)
                            (take max_count (get_conversation_files w)).
Proof.
  unfold load_recent_conversations, last_n.
  split; [rewrite length_drop; lia|].
  split; [|apply suffix_drop].
  apply Forall_drop.
  induction (take max_count (get_conversation_files w)) as [|f fs IH];
    [constructor|].
  simpl. apply Forall_app. split; [apply load_conversation_well_formed | done].
Qed.

(** X12: the recent context has at most [max_count] entries, all of
    them well-formed pairs, and it is the tail of what the first
    [max_count] listed files hold, in listing order. *)
Theorem load_recent_conversations_bounds w max_count :
  (length (load_recent_conversations w max_count) <= max_count)%nat
  /\ Forall well_formed (load_recent_conversations w max_count)
  /\ load_recent_conversations w max_count
       `suffix_of` flat_map (load_conversation w)
                            (take max_count (get_conversation_files w)).
Proof. exact (load_recent_conversations_bounds_holds w max_count). Qed.

(** ** More on [prepare_api_messages] *)

Lemma convert_to_openai_format_length_le l :
  (length (convert_to_openai_format l) <= 2 * length l)%nat.
Proof.
  induction l as [|it l IH]; [done|].
  destruct it as [|u [|b [|c r]]]; simpl in *; lia.
Qed.

Lemma prompt_tokens_app l1 l2 :
  prompt_tokens (l1 ++ l2) = prompt_tokens l1 + prompt_tokens l2.
Proof.
  induction l1 as [|m l1 IH]; simpl; lia.
Qed.

Lemma prompt_tokens_convert l :
  prompt_tokens (convert_to_openai_format l) = total_cost l.
Proof.
  induction l as [|it l IH]; [done|].
  destruct it as [|u [|b [|c r]]]; simpl in *; lia.
Qed.

Lemma length_last_n {A} (n : nat) (l : list A) :
  (length (last_n n l) <= n)%nat.
Proof. unfold last_n. rewrite length_drop. lia. Qed.

(** X13: a prompt never has more than [2 * MAX_HISTORY_ITEMS + 2]
    messages: the system message, two per history entry of the window,
    and the new message. *)
Theorem prepare_api_messages_length conversation p new_message :
  (length (prepare_api_messages conversation p new_message)
   <= 2 * MAX_HISTORY_ITEMS + 2)%nat.
Proof.
  destruct (prepare_api_messages_shape conversation p new_message)
    as (inc & om & (F & _) & ->).
  pose proof (length_filter well_formed (last_n MAX_HISTORY_ITEMS conversation)) as H1.
  pose proof (length_last_n MAX_HISTORY_ITEMS conversation) as H2.
  rewrite F, length_app in H1.
  pose proof (convert_to_openai_format_length_le inc) as H3.
  cbn [length]. rewrite length_app.
  destruct (_ <? _); cbn [length]; lia.
Qed.

(** X14: as soon as a prompt holds more than the system message, the
    tokens of its contents stay within [MAX_TOKENS]. *)
Theorem prepare_api_messages_within_budget conversation p new_message :
  (1 < length (prepare_api_messages conversation p new_message))%nat ->
  prompt_tokens (prepare_api_messages conversation p new_message)
  <= MAX_TOKENS.
Proof.
  destruct (prepare_api_messages_shape conversation p new_message)
    as (inc & om & (_ & Hfit & _) & ->).
  cbn [length]. rewrite length_app.
  change (prompt_tokens (?m :: ?l))
    with (Z.of_nat (count_tokens (content m)) + prompt_tokens l).
  rewrite prompt_tokens_app, prompt_tokens_convert.
  destruct (Z.ltb_spec
              (Z.of_nat (count_tokens new_message)
               + (Z.of_nat (count_tokens (content (system_prompt p)))
                  + total_cost inc)) MAX_TOKENS) as [Hlt|Hge].
  - intros _. unfold prompt_tokens. cbn [foldr content]. lia.
  - unfold prompt_tokens. cbn [foldr length]. intros Hlen.
    destruct Hfit as [->|Hfit]; [simpl in Hlen; lia | lia].
Qed.

Lemma history_loop_all_fit items :
  forall messages tokens_used,
    tokens_used + total_cost items <= MAX_TOKENS ->
    history_loop items messages tokens_used
    = (messages ++ convert_to_openai_format items,
       tokens_used + total_cost items).
Proof.
  induction items as [|it items IH]; intros msgs used Hfit.
  - simpl. by rewrite app_nil_r, Z.add_0_r.
  - destruct it as [|u [|b [|c r]]];
      try (simpl in *; rewrite IH by lia; f_equal; lia).
    cbn [history_loop]. simpl in Hfit.
    set (c := Z.of_nat (count_tokens u) + Z.of_nat (count_tokens b)) in *.
    pose proof (total_cost_nonneg items).
    destruct (Z.gtb_spec (used + c) MAX_TOKENS); [lia|].
    rewrite IH by lia. rewrite convert_to_openai_format_pair.
    simpl. fold c. f_equal; [by rewrite <- app_assoc | lia].
Qed.

(** X15: when the system message, the whole window and the new message
    fit strictly, the prompt is the system message, the messages of
    every well-formed entry of the window, and the new message. *)
Theorem prepare_api_messages_all_fit conversation p new_message :
  Z.of_nat (count_tokens (content (system_prompt p)))
  + total_cost (last_n MAX_HISTORY_ITEMS conversation)
  + Z.of_nat (count_tokens new_message) < MAX_TOKENS ->
  prepare_api_messages conversation p new_message
  = system_prompt p
    :: convert_to_openai_format (last_n MAX_HISTORY_ITEMS conversation)
    ++ [Message "user" new_message].
Proof.
  intros Hfit. unfold prepare_api_messages.
  rewrite history_loop_all_fit by lia.
  destruct (Z.ltb_spec
              (Z.of_nat (count_tokens new_message)
               + (Z.of_nat (count_tokens (content (system_prompt p)))
                  + total_cost (last_n MAX_HISTORY_ITEMS conversation)))
              MAX_TOKENS); [done | lia].
Qed.

(** X16: only the last [MAX_HISTORY_ITEMS] entries are looked at:
    whatever precedes a history of that length or more makes no
    difference. *)
Theorem prepare_api_messages_window older recent p new_message :
  (MAX_HISTORY_ITEMS <= length recent)%nat ->
  prepare_api_messages (older ++ recent) p new_message
  = prepare_api_messages recent p new_message.
Proof.
  intros Hlen. unfold prepare_api_messages.
  replace (last_n MAX_HISTORY_ITEMS (older ++ recent))
    with (last_n MAX_HISTORY_ITEMS recent); [done|].
  unfold last_n. rewrite length_app, drop_app_ge by lia.
  f_equal. lia.
Qed.

Lemma history_loop_overflow items :
  forall messages tokens_used,
    tokens_used > MAX_TOKENS ->
    history_loop items messages tokens_used = (messages, tokens_used).
Proof.
  induction items as [|it items IH]; intros msgs used Hbig; [done|].
  destruct it as [|u [|b [|c r]]]; try (simpl; by apply IH).
  cbn [history_loop].
  destruct (Z.gtb_spec (used + (Z.of_nat (count_tokens u)
                                + Z.of_nat (count_tokens b))) MAX_TOKENS);
    [done | lia].
Qed.

(** X17: a system message that alone exceeds [MAX_TOKENS] leaves room
    for nothing: the prompt is the system message and no more. *)
Theorem prepare_api_messages_system_only conversation p new_message :
  Z.of_nat (count_tokens (content (system_prompt p))) > MAX_TOKENS ->
  prepare_api_messages conversation p new_message = [system_prompt p].
Proof.
  intros Hbig. unfold prepare_api_messages.
  rewrite history_loop_overflow by done.
  destruct (Z.ltb_spec
              (Z.of_nat (count_tokens new_message)
               + Z.of_nat (count_tokens (content (system_prompt p))))
              MAX_TOKENS); [lia | done].
Qed.

(** ** [call_deepseek_api_stream] *)

Lemma call_deepseek_api_stream_effects_holds w prompt conversation p :
  let r := call_deepseek_api_stream w prompt conversation p in
  files (snd r) = files w /\ readonly (snd r) = readonly w
  /\ now (snd r) = now w /\ api_key (snd r) = api_key w
  /\ (((api_key w = None \/ api_key w = Some "")
       /\ snd r = w /\ length (fst r) = 1%nat)
      \/ (exists key data,
            api_key w = Some key /\ key ≠ ""
            /\ sent (snd r) = sent w ++ [data]
            /\ messages data = prepare_api_messages conversation p prompt
            /\ model data = "deepseek-chat"
            /\ stream data = true
            /\ max_tokens data <= 2000)).
Proof.
  unfold call_deepseek_api_stream.
  destruct (api_key w) as [key|] eqn:Hkey; [|simpl; rewrite ?Hkey; tauto].
  destruct (decide (key = "")) as [->|Hne]; [simpl; rewrite ?Hkey; tauto|].
  set (msgs := prepare_api_messages conversation p prompt).
  set (data := Request _ _ _ _).
  assert (Hdata : exists key0 data0,
             Some key = Some key0 /\ key0 ≠ ""
             /\ sent w ++ [data] = sent w ++ [data0]
             /\ messages data0 = msgs /\ model data0 = "deepseek-chat"
             /\ stream data0 = true /\ max_tokens data0 <= 2000).
  { exists key, data. repeat split; try done. simpl. lia. }
  destruct (requests_post key data) as [e|status lines failure]; simpl.
  - rewrite ?Hkey. auto 10.
  - destruct (status =? 200); simpl; rewrite ?Hkey; auto 10.
Qed.

(** X18: the generator never touches the files, the clock or the
    credential.  Without a credential (unset or empty) it yields one
    fragment and posts nothing; with one it posts exactly one request,
    which carries the prompt built by [prepare_api_messages], asks for a
    stream and for at most 2000 tokens. *)
Theorem call_deepseek_api_stream_effects w prompt conversation p :
  let r := call_deepseek_api_stream w prompt conversation p in
  files (snd r) = files w /\ readonly (snd r) = readonly w
  /\ now (snd r) = now w /\ api_key (snd r) = api_key w
  /\ (((api_key w = None \/ api_key w = Some "")
       /\ snd r = w /\ length (fst r) = 1%nat)
      \/ (exists key data,
            api_key w = Some key /\ key ≠ ""
            /\ sent (snd r) = sent w ++ [data]
            /\ messages data = prepare_api_messages conversation p prompt
            /\ model data = "deepseek-chat"
            /\ stream data = true
            /\ max_tokens data <= 2000)).
Proof. exact (call_deepseek_api_stream_effects_holds w prompt conversation p). Qed.

Lemma read_lines_nonempty lines :
  Forall (fun c => c ≠ "") (read_lines lines).
Proof.
  induction lines as [|l lines IH]; [constructor|].
  unfold read_lines. simpl. apply Forall_app. split; [|exact IH].
  destruct l as [text|]; [|constructor].
  destruct (decide (text = "")); repeat constructor; done.
Qed.

(** X19: no fragment is empty: empty [delta.content] texts are not
    yielded, and every explanatory fragment starts with its marker. *)
Theorem call_deepseek_api_stream_nonempty w prompt conversation p :
  Forall (fun c => c ≠ "")
         (fst (call_deepseek_api_stream w prompt conversation p)).
Proof.
  unfold call_deepseek_api_stream.
  destruct (api_key w) as [key|]; [|repeat constructor; done].
  destruct (decide (key = "")); [repeat constructor; done|].
  destruct (requests_post _ _) as [e|status lines failure].
  - repeat constructor. done.
  - destruct (status =? 200); simpl.
    + apply Forall_app. split; [apply read_lines_nonempty|].
      destruct failure; repeat constructor; done.
    + repeat constructor. done.
Qed.

(** ** More on [respond] *)

Lemma append_empty_r s : s +:+ "" = s.
Proof.
  induction s as [|c s IH]; [done|].
  change (String c (s +:+ "") = String c s). by rewrite IH.
Qed.

Lemma append_assoc s1 s2 s3 : (s1 +:+ s2) +:+ s3 = s1 +:+ (s2 +:+ s3).
Proof.
  induction s1 as [|c s1 IH]; [done|].
  change (String c ((s1 +:+ s2) +:+ s3) = String c (s1 +:+ (s2 +:+ s3))).
  by rewrite IH.
Qed.

(** The accumulator of the fragment loop in closed form: the [k]-th
    snapshot carries the first [k] fragments appended to what was
    accumulated before. *)
Lemma stream_loop_closed trimmed_history message current_file chunks :
  forall bot_message,
    stream_loop trimmed_history message current_file bot_message chunks
    = (map (fun k => (trimmed_history
                        ++ [[message;
                             bot_message +:+ concat_fragments (take k chunks)]],
                      current_file))
           (seq 1 (length chunks)),
       bot_message +:+ concat_fragments chunks).
Proof.
  induction chunks as [|c chunks IH]; intros acc.
  - simpl. by rewrite append_empty_r.
  - cbn [stream_loop]. rewrite IH. cbn [length seq map].
    rewrite <- (seq_shift (length chunks) 1), map_map. f_equal; [f_equal|].
    + simpl. by rewrite append_empty_r.
    + apply map_ext. intros k. simpl. by rewrite append_assoc.
    + simpl. by rewrite append_assoc.
Qed.

Lemma respond_success_holds w message chat_history p current_file :
  strip message ≠ "" ->
  (forall ph, fault ph = None) ->
  let trimmed :=
    trim_conversation
      (filter well_formed (load_recent_conversations w 30 ++ chat_history))
      (MAX_TOKENS `div` 2) in
  let r := call_deepseek_api_stream w message trimmed p in
  let full := trimmed ++ [[message; concat_fragments (fst r)]] in
  let s := save_conversation (snd r) full current_file in
  respond w message chat_history p current_file
  = (map (fun k => (trimmed
                      ++ [[message; concat_fragments (take k (fst r))]],
                    current_file))
         (seq 1 (length (fst r)))
     ++ [(full, fst s)], snd s).
Proof.
  intros Hmsg Hok trimmed r full s. unfold respond.
  destruct (decide (strip message = "")); [done|].
  unfold respond_try, guarded. rewrite !Hok. simpl.
  fold trimmed. fold r. destruct r as [chunks w1] eqn:Hr. simpl.
  rewrite stream_loop_closed. simpl.
  subst full s. simpl. by destruct (save_conversation _ _ _).
Qed.

(** X20: a turn that goes through.  For a non-blank message and no
    exception, [respond] yields one snapshot per fragment, each made of
    the trimmed history and the message with the fragments received so
    far, under the key it was given; then the full conversation under
    the key returned by the save, whose world is the final one. *)
Theorem respond_success w message chat_history p current_file :
  strip message ≠ "" ->
  (forall ph, fault ph = None) ->
  let trimmed :=
    trim_conversation
      (filter well_formed (load_recent_conversations w 30 ++ chat_history))
      (MAX_TOKENS `div` 2) in
  let r := call_deepseek_api_stream w message trimmed p in
  let full := trimmed ++ [[message; concat_fragments (fst r)]] in
  let s := save_conversation (snd r) full current_file in
  respond w message chat_history p current_file
  = (map (fun k => (trimmed
                      ++ [[message; concat_fragments (take k (fst r))]],
                    current_file))
         (seq 1 (length (fst r)))
     ++ [(full, fst s)], snd s).
Proof. exact (respond_success_holds w message chat_history p current_file). Qed.

(** In a turn that goes through, the conversation handed to the save is
    made of well-formed pairs. *)
Lemma full_conversation_well_formed conversation max_tokens message reply :
  Forall well_formed
         (trim_conversation conversation max_tokens ++ [[message; reply]]).
Proof.
  apply Forall_app. split; [apply trim_conversation_well_formed|].
  by repeat constructor.
Qed.

(** X21: what the last snapshot shows is what the store holds: after a
    turn that went through and whose save returned a key, loading that
    key gives the history of the last snapshot. *)
Theorem respond_persists w message chat_history p current_file ys w' h key :
  strip message ≠ "" ->
  (forall ph, fault ph = None) ->
  respond w message chat_history p current_file = (ys, w') ->
  last ys = Some (h, key) ->
  key ≠ "" ->
  load_conversation w' key = h.
Proof.
  intros Hmsg Hok Hr Hlast Hkey.
  rewrite (respond_success_holds _ _ _ _ _ Hmsg Hok) in Hr.
  injection Hr as <- <-. rewrite last_snoc in Hlast.
  injection Hlast as <- <-.
  destruct (save_conversation _ _ current_file) as [k w2] eqn:Hs.
  destruct (save_conversation_outcome_holds _ _ _ _ _ Hs)
    as [(_ & -> & _)|(_ & _ & _ & Hload)]; [done|].
  simpl in *. rewrite Hload.
  apply filter_well_formed_id, full_conversation_well_formed.
Qed.

Lemma respond_snapshots_holds w message chat_history p current_file :
  strip message ≠ "" ->
  (forall ph, fault ph = None) ->
  exists trimmed,
    Forall well_formed trimmed
    /\ total_cost trimmed <= MAX_TOKENS `div` 2
    /\ Forall (fun y => exists reply, fst y = trimmed ++ [[message; reply]])
              (fst (respond w message chat_history p current_file)).
Proof.
  intros Hmsg Hok. rewrite (respond_success_holds _ _ _ _ _ Hmsg Hok).
  eexists. split; [apply trim_conversation_well_formed|]. split.
  - match goal with
    | |- total_cost (trim_conversation ?c ?b) <= _ =>
        destruct (trim_conversation_fits c b) as [->|H]; [done | exact H]
    end.
  - cbn [fst]. apply Forall_app. split.
    + apply Forall_forall. intros y Hy.
      apply list_elem_of_In, in_map_iff in Hy as (k & <- & _). simpl. eauto.
    + repeat constructor. simpl. eauto.
Qed.

(** X22: every snapshot of a turn that goes through is one and the same
    trimmed history, made of well-formed pairs and within the history
    budget [MAX_TOKENS // 2], followed by the exchange in progress. *)
Theorem respond_snapshots w message chat_history p current_file :
  strip message ≠ "" ->
  (forall ph, fault ph = None) ->
  exists trimmed,
    Forall well_formed trimmed
    /\ total_cost trimmed <= MAX_TOKENS `div` 2
    /\ Forall (fun y => exists reply, fst y = trimmed ++ [[message; reply]])
              (fst (respond w message chat_history p current_file)).
Proof. exact (respond_snapshots_holds w message chat_history p current_file). Qed.

(** X23: whatever happens to a non-blank message (a turn that goes
    through, or an exception in any phase), every history that
    [respond] yields ends with an entry whose user side is that
    message. *)
Theorem respond_ends_with_message w message chat_history p current_file :
  strip message ≠ "" ->
  Forall (fun y => exists reply, last (fst y) = Some [message; reply])
         (fst (respond w message chat_history p current_file)).
Proof.
  intros Hmsg.
  destruct (fault Merging) as [e|] eqn:Hm;
    [|destruct (fault Trimming) as [e|] eqn:Ht;
      [|destruct (fault Streaming) as [e|] eqn:Hs]].
  1-3: unfold respond; destruct (decide (strip message = "")); [done|];
       unfold respond_try, guarded; rewrite ?Hm, ?Ht, ?Hs; simpl;
       repeat constructor; simpl; rewrite last_snoc; eauto.
  assert (Hok : forall ph, fault ph = None) by (by intros []).
  destruct (respond_snapshots_holds w message chat_history p current_file Hmsg Hok)
    as (trimmed & _ & _ & Hall).
  eapply Forall_impl; [exact Hall|].
  intros y (reply & ->). rewrite last_snoc. eauto.
Qed.

(** X24: the footprint of [respond], in every case: the requests
    already posted stay, at most one is added, the credential is left
    alone, and every file other than the target of the save (the key
    that was given, or the name minted from the clock when none was)
    loads as before. *)
Theorem respond_footprint w message chat_history p current_file :
  let r := respond w message chat_history p current_file in
  let target :=
    if decide (current_file = "")
    then CONVERSATION_DIR +:+ "/conversation_" +:+ now w +:+ ".json"
    else current_file in
  sent w `prefix_of` sent (snd r)
  /\ (length (sent (snd r)) <= S (length (sent w)))%nat
  /\ api_key (snd r) = api_key w
  /\ forall other,
       other ≠ target ->
       load_conversation (snd r) other = load_conversation w other.
Proof.
  cbv zeta.
  assert (Hsame : sent w `prefix_of` sent w
                  /\ (length (sent w) <= S (length (sent w)))%nat).
  { split; [done | lia]. }
  destruct Hsame as (S1 & S2).
  unfold respond. destruct (decide (strip message = "")) as [|Hmsg];
    [by repeat split|].
  destruct (fault Merging) as [e|] eqn:Hm;
    [|destruct (fault Trimming) as [e|] eqn:Ht;
      [|destruct (fault Streaming) as [e|] eqn:Hs]].
  1-3: unfold respond_try, guarded; rewrite ?Hm, ?Ht, ?Hs; simpl;
       by repeat split.
  assert (Hok : forall ph, fault ph = None) by (by intros []).
  pose proof (respond_success_holds w message chat_history p current_file Hmsg Hok)
    as Hr.
  unfold respond in Hr. destruct (decide (strip message = "")); [done|].
  cbv zeta in Hr. rewrite Hr. clear Hr.
  set (trimmed := trim_conversation _ _).
  pose proof (call_deepseek_api_stream_effects_holds w message trimmed p) as Hc.
  cbv zeta in Hc.
  destruct (call_deepseek_api_stream w message trimmed p) as [chunks w1].
  cbn [fst snd] in *.
  destruct Hc as (Hf & _ & Hnow & Hk & Hsent).
  destruct (save_conversation w1 _ current_file) as [k w2] eqn:Hsave.
  pose proof (save_conversation_frame_holds _ _ _ _ _ Hsave) as Hframe.
  cbv zeta in Hframe. rewrite Hnow in Hframe.
  destruct Hframe as (Hload & _ & _ & Hk2 & Hs2).
  cbn [fst snd]. rewrite Hs2, Hk2, Hk.
  assert (Hw1 : sent w `prefix_of` sent w1
                /\ (length (sent w1) <= S (length (sent w)))%nat).
  { destruct Hsent as [(_ & -> & _)|(key & data & _ & _ & -> & _)].
    - split; [done | lia].
    - split; [by apply prefix_app_r|]. rewrite length_app. simpl. lia. }
  destruct Hw1 as [P1 P2]. repeat split; try done.
  intros other Hother. rewrite (Hload other Hother).
  unfold load_conversation. by rewrite Hf.
Qed.

(** X25: within a session whose key exists and can be written, a turn
    that goes through yields every snapshot under that same key. *)
Theorem respond_keeps_key w message chat_history p current_file :
  strip message ≠ "" ->
  (forall ph, fault ph = None) ->
  current_file ≠ "" ->
  current_file ∉ readonly w ->
  Forall (fun y => snd y = current_file)
         (fst (respond w message chat_history p current_file)).
Proof.
  intros Hmsg Hok Hcf Hrw. rewrite (respond_success_holds _ _ _ _ _ Hmsg Hok).
  cbn [fst]. apply Forall_app. split.
  - apply Forall_forall. intros y Hy.
    by apply list_elem_of_In, in_map_iff in Hy as (k & <- & _).
  - repeat constructor. cbn [snd].
    set (trimmed := trim_conversation _ _).
    pose proof (call_deepseek_api_stream_effects_holds w message trimmed p) as Hc.
    cbv zeta in Hc. destruct Hc as (_ & Hro & _).
    destruct (save_conversation _ _ current_file) as [k w2] eqn:Hs.
    destruct (save_conversation_outcome_holds _ _ _ _ _ Hs)
      as [(Hbad & _ & _)|(_ & -> & _ & _)];
      destruct (decide (current_file = "")); try done.
    by rewrite Hro in Hbad.
Qed.

(** X26: when the stored recent context and the session history fit the
    history budget together, nothing is trimmed: every snapshot is the
    stored context, then the well-formed entries of the session history,
    then the exchange in progress.  Entries of the session that are
    already stored therefore appear twice. *)
Theorem respond_merges_stored_and_session w message chat_history p current_file :
  strip message ≠ "" ->
  (forall ph, fault ph = None) ->
  total_cost (load_recent_conversations w 30) + total_cost chat_history
  <= MAX_TOKENS `div` 2 ->
  Forall (fun y => exists reply,
              fst y = load_recent_conversations w 30
                      ++ filter well_formed chat_history
                      ++ [[message; reply]])
         (fst (respond w message chat_history p current_file)).
Proof.
  intros Hmsg Hok Hfit. rewrite (respond_success_holds _ _ _ _ _ Hmsg Hok).
  destruct (load_recent_conversations_bounds_holds w 30) as (_ & Hwf & _).
  assert (Htrim :
    trim_conversation
      (filter well_formed (load_recent_conversations w 30 ++ chat_history))
      (MAX_TOKENS `div` 2)
    = load_recent_conversations w 30 ++ filter well_formed chat_history).
  { rewrite <- trim_conversation_filter_holds, trim_conversation_all_fit_holds.
    - by rewrite filter_app, (filter_well_formed_id _ Hwf).
    - rewrite filter_app, total_cost_app, (filter_well_formed_id _ Hwf).
      assert (total_cost (filter well_formed chat_history)
              = total_cost chat_history).
      { clear. induction chat_history as [|it l IH]; [done|].
        destruct it as [|u [|b [|c r]]];
          try (rewrite filter_skip by (simpl; lia); simpl; lia).
        rewrite filter_cons_True by done. simpl. lia. }
      lia. }
  rewrite Htrim. cbn [fst]. apply Forall_app. split.
  - apply Forall_forall. intros y Hy.
    apply list_elem_of_In, in_map_iff in Hy as (k & <- & _).
    simpl. rewrite <- app_assoc. eauto.
  - repeat constructor. simpl. rewrite <- app_assoc. eauto.
Qed.

(** ** [load_profile] *)

(** X27: [load_profile] settles after one call.  When a call returns, a
    second call returns the same result and changes nothing; the result
    is [None] exactly when the file exists but cannot be used; and an
    existing file is never rewritten. *)
Theorem load_profile_stable s r s' :
  load_profile s = (Returned r, s') ->
  load_profile s' = (Returned r, s')
  /\ (r = None <-> profile_json s = BadProfile)
  /\ (profile_json s ≠ NoProfile -> s' = s).
Proof.
  unfold load_profile.
  destruct (profile_json s) as [| |q] eqn:Hp.
  - destruct (profile_write_error s); [discriminate|].
    intros [= <- <-]. simpl. repeat split; try done.
  - intros [= <- <-]. rewrite Hp. repeat split; done.
  - intros [= <- <-]. rewrite Hp. repeat split; try done.
Qed.

End Program.

(** * Worked instances *)

(** C1, witness: a history with one malformed entry and a budget of 12
    tokens; the two newest pairs cost 6 and are kept, the oldest would
    bring the total to 14. *)
Lemma trim_conversation_suffix_within_budget_witness :
  let h := [["aaaa"; "bbbb"]; ["oops"]; ["cc"; "dd"]; ["e"; "f"]] in
  0 <= 12
  /\ trim_conversation byte_tokens h 12 = [["cc"; "dd"]; ["e"; "f"]]
  /\ trim_conversation byte_tokens h 12 `suffix_of` filter well_formed h
  /\ total_cost byte_tokens (trim_conversation byte_tokens h 12) <= 12.
Proof.
  split; [lia|]. split; [reflexivity|].
  apply (trim_conversation_suffix_within_budget byte_tokens). lia.
Defined.

(** C1, counterexample to the statement for every budget: with the
    budget [-1] the result is empty, and the empty sum, [0], is not at
    most [-1]. *)
Lemma trim_conversation_negative_budget :
  let h := [["hi"; "hello"]] in
  ~ (trim_conversation byte_tokens h (-1) `suffix_of` filter well_formed h
     /\ total_cost byte_tokens (trim_conversation byte_tokens h (-1)) <= -1).
Proof.
  intros h [_ H]. vm_compute in H. by apply H.
Qed.

(** C2, witness: the newest pair alone costs 10 > 9. *)
Lemma trim_conversation_latest_too_big_witness :
  let h := [["a"; "b"]; ["hello"; "world"]; ["x"]] in
  last (filter well_formed h) = Some ["hello"; "world"]
  /\ item_tokens byte_tokens ["hello"; "world"] > 9
  /\ trim_conversation byte_tokens h 9 = [].
Proof.
  intros h. split; [reflexivity|]. split; [reflexivity|].
  apply (trim_conversation_latest_too_big byte_tokens h 9 ["hello"; "world"]);
    reflexivity.
Defined.

(** C3, counterexample: a window of two pairs in which the newer one,
    [long_text] and its reply, does not fit.  The prompt carries the
    older pair and omits the newer one, so it is not the case that every
    omitted entry is older than every included one. *)
Lemma prepare_api_messages_omits_newer :
  let older := ["a"; "b"] in
  let newer := [long_text; "d"] in
  let window := last_n MAX_HISTORY_ITEMS [older; newer] in
  let out := prepare_api_messages byte_tokens [older; newer] default_profile "q" in
  out = [system_prompt default_profile;
         Message "user" "a"; Message "assistant" "b"; Message "user" "q"]
  /\ ~ (forall (i j : nat) ti tj,
          window !! i = Some ti -> window !! j = Some tj ->
          turn_in_prompt out ti -> ~ turn_in_prompt out tj -> (j < i)%nat).
Proof.
  intros older newer window out.
  assert (Hout : out = [system_prompt default_profile;
                        Message "user" "a"; Message "assistant" "b";
                        Message "user" "q"]) by (vm_compute; reflexivity).
  split; [exact Hout|].
  intros H.
  specialize (H 0%nat 1%nat older newer eq_refl eq_refl).
  assert (Hin : turn_in_prompt out older).
  { rewrite Hout. split; apply list_elem_of_In; simpl; tauto. }
  assert (Hnot : ~ turn_in_prompt out newer).
  { rewrite Hout. intros [_ Hd]. apply list_elem_of_In in Hd. simpl in Hd.
    destruct Hd as [Hd|[Hd|[Hd|[Hd|[]]]]]; discriminate Hd. }
  specialize (H Hin Hnot). lia.
Qed.

(** C4, instance: the new message fits and is appended. *)
Lemma prepare_api_messages_new_message_witness :
  exists included omitted,
    history_cut byte_tokens [["hi"; "hello"]] default_profile included omitted
    /\ let running_total :=
         Z.of_nat (byte_tokens (content (system_prompt default_profile)))
         + total_cost byte_tokens included in
       let history :=
         system_prompt default_profile :: convert_to_openai_format included in
       (prepare_api_messages byte_tokens [["hi"; "hello"]] default_profile
                             "how are you?"
        = history ++ [Message "user" "how are you?"]
        <-> Z.of_nat (byte_tokens "how are you?") + running_total < MAX_TOKENS)
       /\ (prepare_api_messages byte_tokens [["hi"; "hello"]] default_profile
                                "how are you?" = history
           <-> ~ Z.of_nat (byte_tokens "how are you?") + running_total
                 < MAX_TOKENS).
Proof.
  exact (prepare_api_messages_new_message byte_tokens [["hi"; "hello"]]
           default_profile "how are you?").
Defined.

(** C6, counterexample: a record of three elements is not dropped; its
    first pair is loaded. *)
Lemma load_conversation_odd_not_dropped :
  Nat.Odd (length odd_document)
  /\ load_conversation sample_world "data/conversations/conversation_b.json"
     = [["u1"; "a1"]]
  /\ load_conversation sample_world "data/conversations/conversation_b.json"
     ≠ [].
Proof.
  split; [exists 1%nat; reflexivity|].
  assert (H : load_conversation sample_world
                "data/conversations/conversation_b.json" = [["u1"; "a1"]])
    by (vm_compute; reflexivity).
  split; [exact H | by rewrite H].
Qed.

(** C6, witness: the same record, read as its first two elements
    followed by the unmatched one. *)
Lemma load_conversation_odd_length_witness :
  let d := [Message "user" "u1"; Message "assistant" "a1"] in
  let key := "data/conversations/conversation_b.json" in
  files sample_world !! key = Some (Document (d ++ [Message "user" "u2"]))
  /\ Nat.Even (length d)
  /\ load_conversation sample_world key = convert_from_openai_format d
  /\ length (load_conversation sample_world key) = Nat.div2 (length d).
Proof.
  intros d key.
  assert (Hf : files sample_world !! key
               = Some (Document (d ++ [Message "user" "u2"])))
    by (vm_compute; reflexivity).
  assert (He : Nat.Even (length d)) by (exists 1%nat; reflexivity).
  split; [exact Hf|]. split; [exact He|].
  exact (load_conversation_odd_length sample_world key d
           (Message "user" "u2") Hf He).
Defined.

(** C7, witness: a first save (no key yet) into the sample store, then a
    load under the key that was minted. *)
Lemma save_load_round_trip_witness :
  let h := [["hi"; "hello"]; ["how are you?"; "fine"]] in
  let key := "data/conversations/conversation_20240102_030405.json" in
  Forall well_formed h
  /\ fst (save_conversation sample_world h "") = key
  /\ key ≠ ""
  /\ convert_from_openai_format (convert_to_openai_format h) = h
  /\ load_conversation (snd (save_conversation sample_world h "")) key = h.
Proof.
  intros h key.
  assert (Hwf : Forall well_formed h) by (repeat constructor).
  assert (Hkey : key ≠ "") by discriminate.
  split; [exact Hwf|]. split; [vm_compute; reflexivity|]. split; [exact Hkey|].
  destruct (save_load_round_trip h Hwf) as [Hconv Hstore].
  split; [exact Hconv|].
  apply (Hstore sample_world ""); [vm_compute; reflexivity | exact Hkey].
Defined.

(** C8, witness: the tokenizer rejects a text while the history is
    trimmed. *)
Lemma respond_exception_witness :
  let e := "Encountered text corresponding to disallowed special token" in
  strip "hello" ≠ ""
  /\ raised_in tokenizer_fault Trimming e
  /\ respond byte_tokens sample_files no_endpoint sample_str tokenizer_fault
             sample_world "hello" [["a"; "b"]] default_profile "k.json"
     = ([([["a"; "b"]; ["hello"; "发生错误: " +:+ e]], "k.json")], sample_world).
Proof.
  intros e.
  assert (Hs : strip "hello" ≠ "") by (vm_compute; discriminate).
  assert (Hr : raised_in tokenizer_fault Trimming e) by (split; reflexivity).
  split; [exact Hs|]. split; [exact Hr|].
  exact (respond_exception byte_tokens sample_files no_endpoint sample_str
           tokenizer_fault sample_world "hello" [["a"; "b"]] default_profile
           "k.json" Trimming e Hs Hr).
Defined.

(** C9, witness: a message made of an ideographic space (U+3000), a
    blank, a tab, a no-break space (U+00A0) and a line feed. *)
Lemma respond_blank_witness :
  let message :=
    concat_fragments
      [utf8 [227; 128; 128]%nat; " "; utf8 [9]%nat; utf8 [194; 160]%nat;
       newline] in
  whitespace_only message = true
  /\ respond byte_tokens sample_files no_endpoint sample_str no_fault
             sample_world message [["a"; "b"]] default_profile "k.json"
     = ([([["a"; "b"]], "k.json")], sample_world).
Proof.
  intros message. split; [reflexivity|].
  apply (respond_blank byte_tokens sample_files no_endpoint sample_str no_fault).
  reflexivity.
Defined.

(** C10, witness: the record of odd length, whose tags do not even
    alternate once a tag is changed. *)
Lemma load_conversation_pairs_witness :
  let key := "data/conversations/conversation_b.json" in
  files sample_world !! key = Some (Document odd_document)
  /\ Forall well_formed (load_conversation sample_world key)
  /\ length (load_conversation sample_world key) = 1%nat
  /\ load_conversation sample_world key !! 0%nat = Some ["u1"; "a1"]
  /\ convert_from_openai_format
       [Message "assistant" "u1"; Message "assistant" "a1"; Message "tool" "u2"]
     = load_conversation sample_world key.
Proof.
  intros key.
  assert (Hf : files sample_world !! key = Some (Document odd_document))
    by (vm_compute; reflexivity).
  destruct (load_conversation_pairs sample_world key) as [Hwf Hdoc].
  destruct (Hdoc odd_document Hf) as (Hlen & Hpos & Hrole).
  split; [exact Hf|]. split; [exact Hwf|]. split; [exact Hlen|].
  split.
  - apply (Hpos 0%nat (Message "user" "u1") (Message "assistant" "a1"));
      reflexivity.
  - apply Hrole. reflexivity.
Defined.

(** ** Scenarios *)

(** Five entries of 1000 tokens each under a budget of 2500: exactly the
    last two are kept. *)
Example trim_conversation_five_turns :
  let h := [["u1"; "a1"]; ["u2"; "a2"]; ["u3"; "a3"]; ["u4"; "a4"]; ["u5"; "a5"]] in
  trim_conversation (fun _ => 500%nat) h 2500 = [["u4"; "a4"]; ["u5"; "a5"]].
Proof. reflexivity. Qed.

(** One earlier exchange and a new message, with room to spare. *)
Example prepare_api_messages_small :
  prepare_api_messages byte_tokens [["hi"; "hello"]] default_profile "how are you?"
  = [system_prompt default_profile;
     Message "user" "hi"; Message "assistant" "hello";
     Message "user" "how are you?"].
Proof. vm_compute. reflexivity. Qed.

(** A whole turn without credential: the explanatory fragment becomes
    the reply, one snapshot is yielded for it, the conversation is saved
    under a fresh key and nothing is posted. *)
Example respond_without_credential :
  let reply := "[错误] 未设置API密钥，请在.env文件中配置DEEPSEEK_API_KEY" in
  let key := "data/conversations/conversation_20240102_030405.json" in
  let r := respond byte_tokens sample_files no_endpoint sample_str no_fault
                   sample_world "ping" [["a"; "b"]] default_profile "" in
  fst r = [([["hi"; "hello"]; ["a"; "b"]; ["ping"; reply]], "");
           ([["hi"; "hello"]; ["a"; "b"]; ["ping"; reply]], key)]
  /\ sent (snd r) = []
  /\ load_conversation (snd r) key
     = [["hi"; "hello"]; ["a"; "b"]; ["ping"; reply]].
Proof. vm_compute. repeat split; reflexivity. Qed.

(** * Worked instances of the further properties *)

(** X3, witness: one stored exchange. *)
Lemma convert_to_from_alternating_witness :
  let d := [Message "user" "a"; Message "assistant" "b"] in
  alternating d = true
  /\ convert_to_openai_format (convert_from_openai_format d) = d.
Proof.
  intros d. split; [reflexivity|].
  apply (convert_to_from_alternating d). reflexivity.
Defined.

(** X5, witness: two pairs of 8 and 4 tokens under a budget of 12. *)
Lemma trim_conversation_all_fit_witness :
  let h := [["aaaa"; "bbbb"]; ["oops"]; ["cc"; "dd"]] in
  total_cost byte_tokens (filter well_formed h) <= 12
  /\ trim_conversation byte_tokens h 12 = filter well_formed h.
Proof.
  intros h.
  assert (H : total_cost byte_tokens (filter well_formed h) <= 12)
    by (vm_compute; discriminate).
  split; [exact H|].
  exact (trim_conversation_all_fit byte_tokens h 12 H).
Defined.

(** X7, witness: budgets 5 and 12 on the same history. *)
Lemma trim_conversation_mono_witness :
  let h := [["aaaa"; "bbbb"]; ["oops"]; ["cc"; "dd"]] in
  5 <= 12
  /\ trim_conversation byte_tokens h 5 `suffix_of` trim_conversation byte_tokens h 12.
Proof.
  intros h. assert (H : 5 <= 12) by lia.
  split; [exact H|].
  exact (trim_conversation_mono byte_tokens h 5 12 H).
Defined.

(** X9, witness: the disk is full and the session is stored in record
    [a]: the save fails after the file was opened, and the record that
    loaded as one exchange is left unusable. *)
Lemma save_conversation_outcome_witness :
  let h := [["hi"; "hello"]; ["more"; "sure"]] in
  let target := "data/conversations/conversation_a.json" in
  let r := save_conversation full_disk_world h target in
  (load_conversation full_disk_world target = [["hi"; "hello"]]
   /\ fst r = "" /\ load_conversation (snd r) target = [])
  /\ (fst r = "" <-> target ∈ readonly full_disk_world)
  /\ (fst r ≠ "" ->
      fst r = target
      /\ load_conversation (snd r) (fst r) = filter well_formed h)
  /\ (fst r = "" ->
      snd r = full_disk_world
      \/ exists left_behind,
           torn full_disk_world !! target = Some left_behind
           /\ files (snd r) = <[target := left_behind]> (files full_disk_world)).
Proof.
  intros h target r. split; [by vm_compute|].
  exact (save_conversation_outcome full_disk_world h target (fst r) (snd r)
           (surjective_pairing r)).
Defined.

(** X10, witness: the same failed save leaves the other records
    alone. *)
Lemma save_conversation_frame_witness :
  let h := [["hi"; "hello"]; ["more"; "sure"]] in
  let target := "data/conversations/conversation_a.json" in
  let r := save_conversation full_disk_world h target in
  (forall other, other ≠ target ->
                 load_conversation (snd r) other
                 = load_conversation full_disk_world other)
  /\ readonly (snd r) = readonly full_disk_world
  /\ now (snd r) = now full_disk_world
  /\ api_key (snd r) = api_key full_disk_world
  /\ sent (snd r) = sent full_disk_world.
Proof.
  intros h target r.
  exact (save_conversation_frame full_disk_world h target (fst r) (snd r)
           (surjective_pairing r)).
Defined.


(** X14, witness: a prompt of four messages. *)
Lemma prepare_api_messages_within_budget_witness :
  let out := prepare_api_messages byte_tokens [["hi"; "hello"]]
                                  default_profile "how are you?" in
  (1 < length out)%nat /\ prompt_tokens byte_tokens out <= MAX_TOKENS.
Proof.
  intros out.
  assert (H : (1 < length out)%nat) by (vm_compute; lia).
  split; [exact H|].
  exact (prepare_api_messages_within_budget byte_tokens [["hi"; "hello"]]
           default_profile "how are you?" H).
Defined.

(** X15, witness: everything fits. *)
Lemma prepare_api_messages_all_fit_witness :
  let conv := [["hi"; "hello"]; ["oops"]] in
  Z.of_nat (byte_tokens (content (system_prompt default_profile)))
  + total_cost byte_tokens (last_n MAX_HISTORY_ITEMS conv)
  + Z.of_nat (byte_tokens "how are you?") < MAX_TOKENS
  /\ prepare_api_messages byte_tokens conv default_profile "how are you?"
     = system_prompt default_profile
       :: convert_to_openai_format (last_n MAX_HISTORY_ITEMS conv)
       ++ [Message "user" "how are you?"].
Proof.
  intros conv.
  assert (H : Z.of_nat (byte_tokens (content (system_prompt default_profile)))
              + total_cost byte_tokens (last_n MAX_HISTORY_ITEMS conv)
              + Z.of_nat (byte_tokens "how are you?") < MAX_TOKENS)
    by (vm_compute; reflexivity).
  split; [exact H|].
  exact (prepare_api_messages_all_fit byte_tokens conv default_profile
           "how are you?" H).
Defined.

(** X16, witness: one more entry in front of twenty. *)
Lemma prepare_api_messages_window_witness :
  (MAX_HISTORY_ITEMS <= length twenty_turns)%nat
  /\ prepare_api_messages byte_tokens ([["old"; "er"]] ++ twenty_turns)
                          default_profile "q"
     = prepare_api_messages byte_tokens twenty_turns default_profile "q".
Proof.
  assert (H : (MAX_HISTORY_ITEMS <= length twenty_turns)%nat)
    by (vm_compute; lia).
  split; [exact H|].
  exact (prepare_api_messages_window byte_tokens [["old"; "er"]] twenty_turns
           default_profile "q" H).
Defined.

(** X17, witness: a profile whose name has 12000 bytes. *)
Lemma prepare_api_messages_system_only_witness :
  Z.of_nat (byte_tokens (content (system_prompt big_profile))) > MAX_TOKENS
  /\ prepare_api_messages byte_tokens [["hi"; "hello"]] big_profile "q"
     = [system_prompt big_profile].
Proof.
  assert (H : Z.of_nat (byte_tokens (content (system_prompt big_profile)))
              > MAX_TOKENS) by (vm_compute; reflexivity).
  split; [exact H|].
  exact (prepare_api_messages_system_only byte_tokens [["hi"; "hello"]]
           big_profile "q" H).
Defined.

Lemma strip_ping : strip "ping" ≠ "".
Proof. vm_compute. discriminate. Defined.

Lemma no_fault_none : forall ph, no_fault ph = None.
Proof. intros ph. reflexivity. Defined.

(** X20, witness: a turn against the sample endpoint.  The empty text
    and the skipped line give no snapshot. *)
Lemma respond_success_witness :
  let stored := [["hi"; "hello"]] in
  let key := "data/conversations/conversation_20240102_030405.json" in
  fst (respond byte_tokens sample_files sample_endpoint sample_str no_fault
               keyed_world "ping" [["a"; "b"]] default_profile "")
  = [(stored ++ [["a"; "b"]; ["ping"; "Hel"]], "");
     (stored ++ [["a"; "b"]; ["ping"; "Hello"]], "");
     (stored ++ [["a"; "b"]; ["ping"; "Hello"]], key)].
Proof.
  intros stored key.
  rewrite (respond_success byte_tokens sample_files sample_endpoint sample_str
             no_fault keyed_world "ping" [["a"; "b"]] default_profile ""
             strip_ping no_fault_none).
  vm_compute. reflexivity.
Defined.

(** X21, witness: the same turn, then a load of the minted key. *)
Lemma respond_persists_witness :
  let r := respond byte_tokens sample_files sample_endpoint sample_str no_fault
                   keyed_world "ping" [["a"; "b"]] default_profile "" in
  let h := [["hi"; "hello"]; ["a"; "b"]; ["ping"; "Hello"]] in
  let key := "data/conversations/conversation_20240102_030405.json" in
  last (fst r) = Some (h, key)
  /\ key ≠ ""
  /\ load_conversation (snd r) key = h.
Proof.
  intros r h key.
  assert (Hlast : last (fst r) = Some (h, key)) by (vm_compute; reflexivity).
  assert (Hkey : key ≠ "") by discriminate.
  split; [exact Hlast|]. split; [exact Hkey|].
  exact (respond_persists byte_tokens sample_files sample_endpoint sample_str
           no_fault keyed_world "ping" [["a"; "b"]] default_profile ""
           (fst r) (snd r) h key strip_ping no_fault_none
           (surjective_pairing r) Hlast Hkey).
Defined.

(** X22, witness. *)
Lemma respond_snapshots_witness :
  exists trimmed,
    Forall well_formed trimmed
    /\ total_cost byte_tokens trimmed <= MAX_TOKENS `div` 2
    /\ Forall (fun y => exists reply, fst y = trimmed ++ [["ping"; reply]])
              (fst (respond byte_tokens sample_files sample_endpoint sample_str
                            no_fault keyed_world "ping" [["a"; "b"]]
                            default_profile "")).
Proof.
  exact (respond_snapshots byte_tokens sample_files sample_endpoint sample_str
           no_fault keyed_world "ping" [["a"; "b"]] default_profile ""
           strip_ping no_fault_none).
Defined.

(** X23, witness: the tokenizer rejects a text; the error entry still
    carries the message. *)
Lemma respond_ends_with_message_witness :
  Forall (fun y => exists reply, last (fst y) = Some ["ping"; reply])
         (fst (respond byte_tokens sample_files sample_endpoint sample_str
                       tokenizer_fault keyed_world "ping" [["a"; "b"]]
                       default_profile "")).
Proof.
  exact (respond_ends_with_message byte_tokens sample_files sample_endpoint
           sample_str tokenizer_fault keyed_world "ping" [["a"; "b"]]
           default_profile "" strip_ping).
Defined.

(** X24, witness: a turn of the session stored in record [a] while the
    disk is full: one request is posted, the save fails, and the records
    other than [a] load as before. *)
Lemma respond_footprint_witness :
  let target := "data/conversations/conversation_a.json" in
  let r := respond byte_tokens sample_files sample_endpoint sample_str no_fault
                   full_disk_world "ping" [["a"; "b"]] default_profile
                   target in
  sent full_disk_world `prefix_of` sent (snd r)
  /\ (length (sent (snd r)) <= S (length (sent full_disk_world)))%nat
  /\ api_key (snd r) = api_key full_disk_world
  /\ forall other,
       other ≠ target ->
       load_conversation (snd r) other
       = load_conversation full_disk_world other.
Proof.
  exact (respond_footprint byte_tokens sample_files sample_endpoint sample_str
           no_fault full_disk_world "ping" [["a"; "b"]] default_profile
           "data/conversations/conversation_a.json").
Defined.

(** X25, witness: a later turn of the session stored in record [a]. *)
Lemma respond_keeps_key_witness :
  let key := "data/conversations/conversation_a.json" in
  key ≠ ""
  /\ (key ∉ readonly keyed_world)
  /\ Forall (fun y => snd y = key)
            (fst (respond byte_tokens sample_files sample_endpoint sample_str
                          no_fault keyed_world "ping" [["hi"; "hello"]]
                          default_profile key)).
Proof.
  intros key.
  assert (Hkey : key ≠ "") by discriminate.
  assert (Hrw : key ∉ readonly keyed_world) by apply not_elem_of_empty.
  split; [exact Hkey|]. split; [exact Hrw|].
  exact (respond_keeps_key byte_tokens sample_files sample_endpoint sample_str
           no_fault keyed_world "ping" [["hi"; "hello"]] default_profile key
           strip_ping no_fault_none Hkey Hrw).
Defined.

(** X26, witness: the session history is the stored record [a]; its
    exchange is replayed twice. *)
Lemma respond_merges_stored_and_session_witness :
  load_recent_conversations sample_files keyed_world 30 = [["hi"; "hello"]]
  /\ Forall (fun y => exists reply,
                 fst y = [["hi"; "hello"]] ++ [["hi"; "hello"]]
                         ++ [["ping"; reply]])
            (fst (respond byte_tokens sample_files sample_endpoint sample_str
                          no_fault keyed_world "ping" [["hi"; "hello"]]
                          default_profile
                          "data/conversations/conversation_a.json")).
Proof.
  split; [vm_compute; reflexivity|].
  assert (Hfit : total_cost byte_tokens
                   (load_recent_conversations sample_files keyed_world 30)
                 + total_cost byte_tokens [["hi"; "hello"]]
                 <= MAX_TOKENS `div` 2) by (vm_compute; discriminate).
  exact (respond_merges_stored_and_session byte_tokens sample_files
           sample_endpoint sample_str no_fault keyed_world "ping"
           [["hi"; "hello"]] default_profile
           "data/conversations/conversation_a.json"
           strip_ping no_fault_none Hfit).
Defined.

(** X27, witness: no profile file yet. *)
Lemma load_profile_stable_witness :
  let s := ProfileStore NoProfile None in
  let s' := ProfileStore (StoredProfile default_profile) None in
  load_profile s = (Returned (Some default_profile), s')
  /\ load_profile s' = (Returned (Some default_profile), s')
  /\ (Some default_profile = None <-> profile_json s = BadProfile)
  /\ (profile_json s ≠ NoProfile -> s' = s).
Proof.
  intros s s'. split; [reflexivity|].
  exact (load_profile_stable s (Some default_profile) s' eq_refl).
Defined.

(** ** Whitespace *)

(** Whitespace of any width is stripped on both sides, and text that is
    not whitespace is kept: an ideographic space, [hi] between two
    Chinese characters, a no-break space and a blank. *)
Example strip_unicode :
  strip (utf8 [227; 128; 128]%nat +:+ "你 hi 好"
         +:+ utf8 [194; 160]%nat +:+ " ")
  = "你 hi 好".
Proof. vm_compute. reflexivity. Qed.

(** The zero-width space U+200B is not whitespace for [str.isspace]. *)
Example zero_width_space_kept :
  whitespace_only (utf8 [226; 128; 139]%nat) = false
  /\ strip (utf8 [226; 128; 139]%nat) = utf8 [226; 128; 139]%nat.
Proof. split; reflexivity. Qed.

(** The table has the 29 whitespace characters, each of them blank on
    its own. *)
Example whitespace_chars_blank :
  length whitespace_chars = 29%nat
  /\ Forall (fun w => strip w = "") whitespace_chars.
Proof.
  split; [reflexivity|].
  unfold whitespace_chars. cbn [map app].
  repeat (constructor; [reflexivity|]). constructor.
Qed.
